(** * Linking object records to image files: a model of [linking.py]

    The development embeds the three functions of [linking.py] that turn an
    inventory number found in a spreadsheet cell into a list of image files:
    [parse_object_number], [find_matching_files_in_year] and
    [build_links_like_group], and proves the properties the specification
    states about them.

    Python text is modelled as a list of characters, each character being a
    code point in the range 0..255 (Latin-1); the character classes of the
    interpreter ([\d], [\s], [str.strip], [str.lower]) are written out for
    that range.  Paths follow the POSIX flavour of [os.path]. *)

From Stdlib Require Import Ascii String.
From stdpp Require Import base option list sorting gmap strings.

Local Open Scope list_scope.

(** ** Text *)

Abbreviation str := (list ascii).

(** String literals of the source are written as literals here as well. *)
Coercion list_ascii_of_string : string >-> list.

Definition code (c : ascii) : N := N_of_ascii c.

(** [\d] on [str] patterns matches the decimal digits; below 256 these are
    the ten ASCII digits. *)
Definition is_digit (c : ascii) : bool :=
  (48 <=? code c)%N && (code c <=? 57)%N.

(** [\s] on [str] patterns and [str.strip()] use the same whitespace test of
    the interpreter; below 256 it holds for TAB..CR, FS..US, space, NEL and
    the no-break space. *)
Definition is_space (c : ascii) : bool :=
  ((9 <=? code c)%N && (code c <=? 13)%N)
  || ((28 <=? code c)%N && (code c <=? 32)%N)
  || (code c =? 133)%N || (code c =? 160)%N.

(** [str.lower()] character by character: A..Z and the Latin-1 capitals
    (all of 0xC0..0xDE but the multiplication sign) move up by 32. *)
Definition lower_char (c : ascii) : ascii :=
  if ((65 <=? code c)%N && (code c <=? 90)%N)
     || ((192 <=? code c)%N && (code c <=? 222)%N && negb (code c =? 215)%N)
  then ascii_of_N (code c + 32) else c.

Definition lower (s : str) : str := map lower_char s.

(** [s.strip()]: whitespace removed at both ends. *)
Fixpoint lstrip (s : str) : str :=
  match s with
  | c :: s' => if is_space c then lstrip s' else s
  | [] => []
  end.

Definition rstrip (s : str) : str := rev (lstrip (rev s)).

Definition strip (s : str) : str := rstrip (lstrip s).

(** [s.startswith(p)] *)
Fixpoint startswith (s p : str) {struct p} : bool :=
  match p, s with
  | [], _ => true
  | a :: p', b :: s' => if decide (a = b) then startswith s' p' else false
  | _ :: _, [] => false
  end.

(** ** Values, exceptions *)

(** What a cell of the [obj_id_raw] column can hold: a string, a missing
    value ([None]/[NaN], what [dropna] removes), or a number. *)
Inductive pyval :=
| PStr (s : str)
| PNaN
| PNum (z : Z).

Global Instance pyval_eq_dec : EqDecision pyval.
Proof. solve_decision. Defined.

Inductive exn := OSError | KeyError | ValueError.

Inductive result (A : Type) :=
| Ok (a : A)
| Raise (e : exn).
Arguments Ok {A} a.
Arguments Raise {A} e.

Global Instance result_ret : MRet result := λ A a, Ok a.
Global Instance result_bind : MBind result := λ A B f m,
  match m with Ok a => f a | Raise e => Raise e end.

(** ** The pattern [OBJ_RE]

    The fragment of regular expressions the pattern is written in: a literal
    character, or a greedy repetition of a character class, possibly a
    capturing group.  A pattern is a sequence of such nodes. *)
Inductive node :=
| Lit (c : ascii)
| Rep (capture : bool) (cls : ascii → bool) (lo : nat) (hi : option nat).

(** [(\d+)\s*/\s*(\d{4})\s*/\s*(\d{3,4})\s+(\d+)]; the flag [re.IGNORECASE]
    changes nothing for digits, whitespace and the slash. *)
Definition OBJ_RE : list node :=
  [ Rep true is_digit 1 None; Rep false is_space 0 None; Lit "/";
    Rep false is_space 0 None; Rep true is_digit 4 (Some 4);
    Rep false is_space 0 None; Lit "/"; Rep false is_space 0 None;
    Rep true is_digit 3 (Some 4); Rep false is_space 1 None;
    Rep true is_digit 1 None ].

(** Number of leading characters of [s] in the class, capped at [hi]. *)
Fixpoint span (cls : ascii → bool) (hi : option nat) (s : str) : nat :=
  match hi, s with
  | Some 0, _ => 0
  | _, [] => 0
  | _, c :: s' => if cls c then S (span cls (pred <$> hi) s') else 0
  end.

(** A greedy repetition tries the longest count first and gives characters
    back one at a time, down to [lo]. *)
Fixpoint backtrack {R} (k : nat → option R) (lo n : nat) : option R :=
  if decide (n < lo) then None else
  match k n with
  | Some r => Some r
  | None => match n with 0 => None | S n' => backtrack k lo n' end
  end.

(** Matching a pattern at the start of [s]; [caps] are the groups captured so
    far, last first. *)
Fixpoint match_nodes (re : list node) (s : str) (caps : list str)
  : option (list str) :=
  match re with
  | [] => Some (rev caps)
  | Lit c :: re' =>
      match s with
      | c' :: s' => if decide (c = c') then match_nodes re' s' caps else None
      | [] => None
      end
  | Rep cap cls lo hi :: re' =>
      backtrack
        (λ n, match_nodes re' (drop n s) (if cap then take n s :: caps else caps))
        lo (span cls hi s)
  end.

Definition match_here (s : str) : option (list str) := match_nodes OBJ_RE s [].

(** [OBJ_RE.search(raw)] followed by [m.groups()]: the first start position,
    from the left, at which the pattern matches. *)
Fixpoint search (s : str) : option (list str) :=
  match match_here s with
  | Some m => Some m
  | None => match s with [] => None | _ :: s' => search s' end
  end.

(** ** [parse_object_number] *)

Definition parse_object_number (raw : pyval) : result (option (gmap string str)) :=
  match raw with
  | PStr s =>
      match search s with
      | None => mret None
      | Some groups =>
          match groups with
          | [g1; year; g3; _g4] =>
              let base_prefix : str := g1 ++ "-" ++ year ++ "-" ++ g3 ++ "-" in
              mret (Some (<["year" := year]> (<["base_prefix" := base_prefix]> ∅)))
          | _ => Raise ValueError
          end
      end
  | _ => mret None
  end.

(** ** Paths ([posixpath]) and ordering *)

Definition endswith_slash (a : str) : bool :=
  match last a with Some c => bool_decide (c = "/"%char) | None => false end.

(** [os.path.join(a, b)] *)
Definition path_join (a b : str) : str :=
  if startswith b "/" then b
  else if bool_decide (a = []) || endswith_slash a then a ++ b
  else a ++ "/" ++ b.

(** [s.rfind(c)], counting from [i]; [-1] when [c] does not occur. *)
Fixpoint rfind_from (c : ascii) (s : str) (i : Z) : Z :=
  match s with
  | [] => -1
  | x :: s' =>
      let r := rfind_from c s' (i + 1) in
      if (0 <=? r)%Z then r else if bool_decide (x = c) then i else -1
  end.

Definition rfind (c : ascii) (s : str) : Z := rfind_from c s 0.

(** [os.path.basename(p)] *)
Definition basename (p : str) : str := drop (Z.to_nat (rfind "/" p + 1)) p.

(** [os.path.splitext(p)]: the extension starts at the last dot of the last
    component, unless only dots come before it in that component. *)
Definition splitext (p : str) : str * str :=
  let sepIndex := rfind "/" p in
  let dotIndex := rfind "." p in
  if (sepIndex <? dotIndex)%Z then
    let filenameIndex := Z.to_nat (sepIndex + 1) in
    let before := take (Z.to_nat dotIndex - filenameIndex) (drop filenameIndex p) in
    if existsb (λ c, negb (bool_decide (c = "."%char))) before
    then (take (Z.to_nat dotIndex) p, drop (Z.to_nat dotIndex) p)
    else (p, [])
  else (p, []).

(** Comparison of [str] values: lexicographic on code points. *)
Fixpoint str_leb (s t : str) : bool :=
  match s, t with
  | [], _ => true
  | _ :: _, [] => false
  | a :: s', b :: t' =>
      if (code a <? code b)%N then true
      else if (code a =? code b)%N then str_leb s' t' else false
  end.

Definition str_le (s t : str) : Prop := str_leb s t = true.

Global Instance str_le_dec : RelDecision str_le.
Proof. intros s t. unfold str_le. apply _. Defined.

(** [sorted(l)] on a list of [str]; the order is total and antisymmetric, so
    the sorted list does not depend on the sorting algorithm. *)
Definition sorted (l : list str) : list str := merge_sort str_le l.

(** [sep.join(l)] *)
Fixpoint str_join (sep : str) (l : list str) : str :=
  match l with
  | [] => []
  | [x] => x
  | x :: l' => x ++ sep ++ str_join sep l'
  end.

(** ** The file system

    What the three calls of the source observe: [os.path.isdir] and
    [os.path.isfile] answer for every path and never raise; [os.listdir]
    returns the names of the entries of a directory, or raises [OSError]
    ([None] here). *)
Record filesystem := {
  isdir : str → bool;
  isfile : str → bool;
  listdir : str → option (list str) }.

Definition os_listdir (fs : filesystem) (d : str) : result (list str) :=
  match listdir fs d with Some names => Ok names | None => Raise OSError end.

(** ** [find_matching_files_in_year] *)

Definition ALLOWED_EXTS : gset str :=
  {[ ".jpg" : str; ".jpeg" : str; ".png" : str; ".tif" : str; ".tiff" : str;
     ".bmp" : str ]}.

(** One turn of the loop over the directory listing. *)
Definition scan_name (fs : filesystem) (year_dir base_lower : str)
    (out : list str) (name : str) : list str :=
  let p := path_join year_dir name in
  if negb (isfile fs p) then out
  else
    let ext := lower (splitext name).2 in
    if bool_decide (ext ∉ ALLOWED_EXTS) then out
    else if startswith (lower name) base_lower then out ++ [p] else out.

Definition find_matching_files_in_year (fs : filesystem)
    (images_root year base_prefix : str) : result (list str) :=
  let year_dir := path_join images_root year in
  if negb (isdir fs year_dir) then mret []
  else
    let base_lower := lower base_prefix in
    names ← os_listdir fs year_dir;
    let out := foldl (scan_name fs year_dir base_lower) [] names in
    mret (sorted out).

(** ** [build_links_like_group] *)

(** A row of [meta]: the columns [obj_id_raw] and [_source_file]. *)
Record meta_row := MetaRow {
  m_obj_id_raw : pyval;
  m_source_file : str }.

(** A row of the returned table. *)
Record link := Link {
  row_obj_id_raw : pyval;
  row_year : str;
  row_base_prefix : str;
  row_images : list str;
  row_image_count : nat;
  row_source_files : str }.

(** An entry of [misses]; the keys [year] and [base_prefix] are present only
    in the entries of the second kind. *)
Record miss := Miss {
  miss_obj_id_raw : pyval;
  miss_year : option str;
  miss_base_prefix : option str;
  miss_reason : str }.

Definition getitem (d : gmap string str) (k : string) : result str :=
  match d !! k with Some v => Ok v | None => Raise KeyError end.

Fixpoint foldM {A B} (f : A → B → result A) (a : A) (l : list B) : result A :=
  match l with
  | [] => mret a
  | x :: l' => a' ← f a x; foldM f a' l'
  end.

(** [Series.dropna()] *)
Definition dropna (l : list pyval) : list pyval := filter (λ v, v ≠ PNaN) l.

(** [lambda x: x.strip() if isinstance(x, str) else x] *)
Definition strip_cell (x : pyval) : pyval :=
  match x with PStr s => PStr (strip s) | _ => x end.

(** [Series.drop_duplicates()]: the first of equal values is kept. *)
Fixpoint drop_duplicates_from (seen l : list pyval) : list pyval :=
  match l with
  | [] => []
  | x :: l' =>
      if decide (x ∈ seen) then drop_duplicates_from seen l'
      else x :: drop_duplicates_from (x :: seen) l'
  end.

Definition drop_duplicates (l : list pyval) : list pyval :=
  drop_duplicates_from [] l.

(** The values the second loop runs over:
    [meta["obj_id_raw"].dropna().map(...).drop_duplicates()]. *)
Definition series_of (meta : list meta_row) : list pyval :=
  drop_duplicates (strip_cell <$> dropna (m_obj_id_raw <$> meta)).

(** The first loop: the source files of every key. *)
Definition src_step (src_map : gmap (str * str) (gset str)) (r : meta_row)
  : result (gmap (str * str) (gset str)) :=
  parsed ← match m_obj_id_raw r with
           | PStr _ => parse_object_number (m_obj_id_raw r)
           | _ => mret None
           end;
  match parsed with
  | None => mret src_map
  | Some parsed =>
      year ← getitem parsed "year";
      base_prefix ← getitem parsed "base_prefix";
      let key := (year, lower base_prefix) in
      mret (<[key := default ∅ (src_map !! key) ∪ {[m_source_file r]}]> src_map)
  end.

Definition reason_no_number : str :=
  "Keine Objektnummer im Format 'g1/yyyy/g3 g4' gefunden".

(** [f"Keine Dateien in {year}/ mit Präfix '{base_prefix}'"]; the a-umlaut
    is the code point 228. *)
Definition reason_no_files (year base_prefix : str) : str :=
  "Keine Dateien in " ++ year ++ "/ mit Pr" ++ ["228"%char] ++ "fix '"
  ++ base_prefix ++ "'".

(** The variables of the second loop. *)
Record state := State {
  rows : list link;
  misses : list miss;
  seen_prefixes : gset (str * str) }.

Definition link_step (fs : filesystem) (images_root : str)
    (src_map : gmap (str * str) (gset str)) (st : state) (raw : pyval)
  : result state :=
  parsed ← parse_object_number raw;
  match parsed with
  | None =>
      mret (State (rows st)
              (misses st ++ [Miss raw None None reason_no_number])
              (seen_prefixes st))
  | Some parsed =>
      year ← getitem parsed "year";
      base_prefix ← getitem parsed "base_prefix";
      let key := (year, lower base_prefix) in
      if bool_decide (key ∈ seen_prefixes st) then mret st
      else
        let seen := seen_prefixes st ∪ {[key]} in
        matches ← find_matching_files_in_year fs images_root year base_prefix;
        match matches with
        | [] =>
            mret (State (rows st)
                    (misses st ++ [Miss raw (Some year) (Some base_prefix)
                                     (reason_no_files year base_prefix)])
                    seen)
        | _ =>
            let source_files := sorted (elements (default ∅ (src_map !! key))) in
            mret (State
                    (rows st ++ [Link raw year base_prefix
                                   (basename <$> matches) (length matches)
                                   (str_join ", " source_files)])
                    (misses st) seen)
        end
  end.

(** The result is the table of linked groups together with the list
    [misses], which the source writes to [OUT_MISSES_CSV] when it is not
    empty.  The write and the [print] after it are not part of the model:
    [Ok (rows, misses)] is what the function has computed when it reaches
    them, and [Raise] is an exception of the computation before them. *)
Definition build_links_like_group (fs : filesystem) (meta : list meta_row)
    (images_root : str) : result (list link * list miss) :=
  match meta with
  | [] => mret ([], [])
  | _ =>
      let series := series_of meta in
      src_map ← foldM src_step ∅ meta;
      st ← foldM (link_step fs images_root src_map) (State [] [] ∅) series;
      mret (rows st, misses st)
  end.

(** ** The identifier shape of the specification

    The specification describes the pattern in words:
    [<digits> / <4-digit-year> / <3-or-4-digit-number> <digits>], the slashes
    optionally surrounded by whitespace, the last two numbers separated by
    mandatory whitespace.  [ident] names the pieces of such a piece of text
    and [well_shaped] states the conditions on them. *)

Definition digits (s : str) : Prop := Forall (λ c, is_digit c = true) s.
Definition spaces (s : str) : Prop := Forall (λ c, is_space c = true) s.

Record ident := Ident {
  id_group : str; id_w1 : str; id_w2 : str;
  id_year : str; id_w3 : str; id_w4 : str;
  id_sequence : str; id_w5 : str; id_series : str }.

Definition text_of (i : ident) : str :=
  id_group i ++ id_w1 i ++ "/" ++ id_w2 i ++ id_year i ++ id_w3 i ++ "/"
  ++ id_w4 i ++ id_sequence i ++ id_w5 i ++ id_series i.

Definition well_shaped (i : ident) : Prop :=
  (digits (id_group i) ∧ id_group i ≠ [])
  ∧ (spaces (id_w1 i) ∧ spaces (id_w2 i))
  ∧ (digits (id_year i) ∧ length (id_year i) = 4)
  ∧ (spaces (id_w3 i) ∧ spaces (id_w4 i))
  ∧ (digits (id_sequence i) ∧ 3 ≤ length (id_sequence i) ≤ 4)
  ∧ (spaces (id_w5 i) ∧ id_w5 i ≠ [])
  ∧ (digits (id_series i) ∧ id_series i ≠ []).

(** The same identifier with another series. *)
Definition with_series (i : ident) (t : str) : ident :=
  Ident (id_group i) (id_w1 i) (id_w2 i) (id_year i) (id_w3 i) (id_w4 i)
        (id_sequence i) (id_w5 i) t.

(** The prefix the specification derives from the pieces:
    ["{group}-{year}-{sequence}-"]. *)
Definition prefix_of (i : ident) : str :=
  id_group i ++ "-" ++ id_year i ++ "-" ++ id_sequence i ++ "-".

(** The dictionary [parse_object_number] builds for a year and a prefix. *)
Definition key_dict (year base_prefix : str) : gmap string str :=
  <["year" := year]> (<["base_prefix" := base_prefix]> ∅).

(** [raw] contains the pattern: some piece of it is a well-shaped identifier. *)
Definition contains_pattern (raw : str) : Prop :=
  ∃ pre i post, well_shaped i ∧ raw = pre ++ text_of i ++ post.

(** The occurrence [i] after [pre] is the first one: no well-shaped
    identifier starts further to the left. *)
Definition first_occurrence (raw pre : str) (i : ident) (post : str) : Prop :=
  well_shaped i ∧ raw = pre ++ text_of i ++ post
  ∧ ∀ pre' i' post', well_shaped i' → raw = pre' ++ text_of i' ++ post' →
      length pre ≤ length pre'.

(** [stops cls s]: the text [s] does not go on with a character of [cls]. *)
Definition stops (cls : ascii → bool) (s : str) : Prop :=
  match s with [] => True | c :: _ => cls c = false end.

Definition within (hi : option nat) (n : nat) : Prop :=
  match hi with None => True | Some h => n ≤ h end.

Definition groups_of (i : ident) : list str :=
  [id_group i; id_year i; id_sequence i; id_series i].


(** ** The words of the specification about the resolver *)

(** The direct children of [d]: the entries [os.listdir] gives for a
    directory, none when [d] is not a directory. *)
Definition children (fs : filesystem) (d : str) : option (list str) :=
  if isdir fs d then listdir fs d else Some [].

(** A child qualifies if it is a regular file, its extension, lower-cased, is
    an allowed one, and its lower-cased name starts with the lower-cased
    prefix. *)
Definition qualifies (fs : filesystem) (d prefix name : str) : Prop :=
  isfile fs (path_join d name) = true
  ∧ lower (splitext name).2 ∈ ALLOWED_EXTS
  ∧ startswith (lower name) (lower prefix) = true.

Global Instance qualifies_dec fs d prefix name :
  Decision (qualifies fs d prefix name).
Proof. unfold qualifies. apply _. Defined.

(** ** The words of the specification about the aggregation *)

(** The year and the prefix [parse_object_number] finds in a cell. *)
Definition year_prefix (v : pyval) : option (str * str) :=
  match parse_object_number v with
  | Ok (Some d) =>
      match d !! "year", d !! "base_prefix" with
      | Some y, Some p => Some (y, p)
      | _, _ => None
      end
  | _ => None
  end.

(** The key of the aggregation: the year and the lower-cased prefix. *)
Definition key_of (v : pyval) : option (str * str) :=
  (λ yp, (yp.1, lower yp.2)) <$> year_prefix v.

Definition row_key (r : link) : str * str :=
  (row_year r, lower (row_base_prefix r)).

Definition miss_key (m : miss) : option (str * str) :=
  match miss_year m, miss_base_prefix m with
  | Some y, Some p => Some (y, lower p)
  | _, _ => None
  end.

(** The keys of everything emitted, linked groups first. *)
Definition emitted_keys (rs : list link) (ms : list miss) : list (str * str) :=
  (row_key <$> rs) ++ omap miss_key ms.

(** The names a listing returns are names, not paths: no slash in them. *)
Definition names_plain (fs : filesystem) : Prop :=
  ∀ d names, listdir fs d = Some names → Forall (λ n, "/"%char ∉ n) names.

(** ** The invariant of the second loop

    [processed] is the part of [series] the loop has gone through. *)

(** [raw] is the first of [processed] with the key [k]. *)
Definition first_with_key (processed : list pyval) (raw : pyval)
    (k : str * str) : Prop :=
  ∃ l1 l2, processed = l1 ++ raw :: l2 ∧ key_of raw = Some k
    ∧ ∀ x, x ∈ l1 → key_of x ≠ Some k.

(** What the table's rows are made of. *)
Definition row_ok (fs : filesystem) (root : str)
    (src_map : gmap (str * str) (gset str)) (processed : list pyval)
    (r : link) : Prop :=
  ∃ y p matches,
    year_prefix (row_obj_id_raw r) = Some (y, p)
    ∧ first_with_key processed (row_obj_id_raw r) (y, lower p)
    ∧ find_matching_files_in_year fs root y p = Ok matches
    ∧ matches ≠ []
    ∧ r = Link (row_obj_id_raw r) y p (basename <$> matches) (length matches)
            (str_join ", "
               (sorted (elements (default ∅ (src_map !! (y, lower p)))))).

(** What the entries of [misses] are made of. *)
Definition miss_ok (fs : filesystem) (root : str) (processed : list pyval)
    (m : miss) : Prop :=
  (year_prefix (miss_obj_id_raw m) = None
   ∧ miss_obj_id_raw m ∈ processed
   ∧ m = Miss (miss_obj_id_raw m) None None reason_no_number)
  ∨ ∃ y p,
      year_prefix (miss_obj_id_raw m) = Some (y, p)
      ∧ first_with_key processed (miss_obj_id_raw m) (y, lower p)
      ∧ find_matching_files_in_year fs root y p = Ok []
      ∧ m = Miss (miss_obj_id_raw m) (Some y) (Some p) (reason_no_files y p).

Record loop_inv (fs : filesystem) (root : str)
    (src_map : gmap (str * str) (gset str)) (processed : list pyval)
    (st : state) : Prop := LoopInv {
  inv_seen : ∀ k, k ∈ seen_prefixes st ↔
               ∃ x, x ∈ processed ∧ key_of x = Some k;
  inv_rows : Forall (row_ok fs root src_map processed) (rows st);
  inv_misses : Forall (miss_ok fs root processed) (misses st);
  inv_rows_sub : (row_obj_id_raw <$> rows st) `sublist_of` processed;
  inv_misses_sub : (miss_obj_id_raw <$> misses st) `sublist_of` processed;
  inv_keys_nodup : NoDup (emitted_keys (rows st) (misses st));
  inv_keys_seen : ∀ k, k ∈ emitted_keys (rows st) (misses st) ↔
                    k ∈ seen_prefixes st;
  inv_failed : ∀ x, x ∈ processed → year_prefix x = None →
                 x ∈ miss_obj_id_raw <$> misses st }.

(** ** Sample inputs *)

(** An image root with one year folder: two images of object 1-1997-1063, an
    image of another object, a text file, and one more image of the object
    in a nested folder. *)
Definition demo_fs : filesystem := {|
  isdir d :=
    bool_decide (d ∈ [ "root" : str; "root/1997" : str; "root/1997/sub" : str ]);
  isfile p :=
    bool_decide (p ∈ [ "root/1997/1-1997-1063-001.jpg" : str;
                       "root/1997/1-1997-1063-000.JPG" : str;
                       "root/1997/2-1997-9999-000.jpg" : str;
                       "root/1997/1-1997-1063-002.txt" : str;
                       "root/1997/sub/1-1997-1063-003.jpg" : str ]);
  listdir d :=
    if bool_decide (d = ("root" : str)) then Some [ "1997" : str ]
    else if bool_decide (d = ("root/1997" : str)) then
      Some [ "1-1997-1063-001.jpg" : str; "sub" : str;
             "1-1997-1063-000.JPG" : str; "2-1997-9999-000.jpg" : str;
             "1-1997-1063-002.txt" : str ]
    else if bool_decide (d = ("root/1997/sub" : str)) then
      Some [ "1-1997-1063-003.jpg" : str ]
    else None |}.

(** A file system without any directory. *)
Definition empty_fs : filesystem := {|
  isdir _ := false; isfile _ := false; listdir _ := None |}.

Definition demo_meta : list meta_row :=
  [ MetaRow (PStr " 1 / 1997 / 1063 0") "a.xls";
    MetaRow PNaN "a.xls";
    MetaRow (PStr "1/1997/1063 2") "b.xls";
    MetaRow (PStr "no number here") "a.xls";
    MetaRow (PNum 5) "b.xls";
    MetaRow (PStr "3/2001/050 0") "b.xls";
    MetaRow (PStr "1 / 1997 / 1063 0  ") "c.xls" ].

Definition demo_rows : list link :=
  Eval vm_compute in
    match build_links_like_group demo_fs demo_meta "root" with
    | Ok (rs, _) => rs
    | Raise _ => []
    end.

Definition demo_misses : list miss :=
  Eval vm_compute in
    match build_links_like_group demo_fs demo_meta "root" with
    | Ok (_, ms) => ms
    | Raise _ => []
    end.

Definition demo_row : link :=
  Eval vm_compute in
    match demo_rows with r :: _ => r | [] => Link PNaN [] [] [] 0 [] end.

Definition demo_miss : miss :=
  Eval vm_compute in
    match demo_misses with m :: _ => m | [] => Miss PNaN None None [] end.

Definition demo_ident : ident :=
  Ident "12" " " " " "1997" " " "  " "063" "   " "5".

(** ** Further words for statements about the code *)

(** The characters a prefix is made of. *)
Definition prefix_char (c : ascii) : Prop :=
  is_digit c = true ∨ c = "-"%char.

(** The identifier with one more digit in front of its group. *)
Definition with_group_digit (c : ascii) (i : ident) : ident :=
  Ident (c :: id_group i) (id_w1 i) (id_w2 i) (id_year i) (id_w3 i) (id_w4 i)
        (id_sequence i) (id_w5 i) (id_series i).

(** Two file systems that differ at most in the order in which their
    directories are listed. *)
Definition same_up_to_listing_order (fs fs' : filesystem) : Prop :=
  (∀ p, isdir fs p = isdir fs' p)
  ∧ (∀ p, isfile fs p = isfile fs' p)
  ∧ ∀ d, match listdir fs d, listdir fs' d with
         | Some l, Some l' => l ≡ₚ l'
         | None, None => True
         | _, _ => False
         end.

(** Two file systems that look the same at the directory [d] and at the
    entries in it. *)
Definition agree_on_dir (fs fs' : filesystem) (d : str) : Prop :=
  isdir fs d = isdir fs' d
  ∧ listdir fs d = listdir fs' d
  ∧ ∀ n, isfile fs (path_join d n) = isfile fs' (path_join d n).

(** A listing does not name an entry twice. *)
Definition names_distinct (fs : filesystem) : Prop :=
  ∀ d names, listdir fs d = Some names → NoDup names.

(** ** Reading the spreadsheets: [read_excel_any] and
    [load_selected_excels_only_t1]

    What [pandas] does is taken as given: a table has column labels, a
    number of rows and a cell for every row and column position;
    [pd.read_excel] returns a table or raises ([None] here), with the engine
    named or left to [pandas]; [os.path.exists] answers for every path.
    The [print] calls of the loader and of [main] and the writing of the CSV
    files are not part of the model: [Returns] is what has been computed,
    [Throws] an exception of the computation. *)

Inductive engine := openpyxl | xlrd.

Record frame := Frame {
  labels : list pyval;
  nrows : nat;
  cell : nat → nat → pyval }.

Record excel_files := {
  path_exists : str → bool;
  pd_read_excel : str → option engine → option frame }.

(** What the computation of the loader and of [main] can raise. *)
Inductive load_error := AttributeError | LabelKeyError.

Inductive main_error := FromLoad (e : load_error) | FromLink (e : exn).

Inductive outcome (E A : Type) :=
| Returns (a : A)
| Throws (e : E).
Arguments Returns {E A} a.
Arguments Throws {E A} e.

(** [pd.DataFrame()] *)
Definition no_frame : frame := Frame [] 0 (λ _ _, PNaN).

(** [df.empty]: no column or no row. *)
Definition frame_empty (df : frame) : bool :=
  bool_decide (labels df = []) || bool_decide (nrows df = 0).

(** [read_excel_any]: whatever goes wrong, an unsupported extension
    included, is caught, and the empty table is returned. *)
Definition read_excel_any (env : excel_files) (path : str) : frame :=
  let ext := lower (splitext path).2 in
  let attempt : option frame :=
    if bool_decide (ext = (".xlsx" : str)) then
      pd_read_excel env path (Some openpyxl)
    else if bool_decide (ext = (".xls" : str)) then
      match pd_read_excel env path None with
      | Some df => Some df
      | None => pd_read_excel env path (Some xlrd)
      end
    else None in
  match attempt with
  | Some df => df
  | None => no_frame
  end.

(** [{c.lower(): c for c in df.columns}]: a later label replaces an earlier
    one with the same lower-cased text; a label that is not a string has no
    [lower]. *)
Fixpoint lower_labels (cols : list pyval) (acc : gmap str pyval)
  : outcome load_error (gmap str pyval) :=
  match cols with
  | [] => Returns acc
  | PStr s :: cols' => lower_labels cols' (<[lower s := PStr s]> acc)
  | _ :: _ => Throws AttributeError
  end.

(** [df.iloc[start:stop]] *)
Definition iloc (df : frame) (start stop : nat) : frame :=
  let a := start `min` nrows df in
  let b := stop `min` nrows df in
  Frame (labels df) (b - a) (λ r c, cell df (a + r) c).

(** The cells of the column with the given label, from the first row to the
    last; the labels of a table read by [pandas] are pairwise distinct, so
    this is what [df[[label]]] holds.  A label that is not there is a
    [KeyError]. *)
Definition column (df : frame) (label : pyval)
  : outcome load_error (list pyval) :=
  match list_find (λ c, c = label) (labels df) with
  | Some (i, _) => Returns ((λ r, cell df r i) <$> seq 0 (nrows df))
  | None => Throws LabelKeyError
  end.

Definition specs : list (str * (nat * nat)) :=
  [ ("Liste_AK Kommunikation.xls" : str, (300, 600));
    ("Liste_AEG Produktsammlung.xls" : str, (2500, 3000)) ].

(** One turn of the loop over [specs]: the rows it appends, none when the
    turn ends with [continue]. *)
Definition load_part (env : excel_files) (excel_dir : str)
    (spec : str * (nat * nat)) : outcome load_error (list meta_row) :=
  let '(fname, (start, stop)) := spec in
  let path := path_join excel_dir fname in
  let found : option str :=
    if path_exists env path then Some path
    else
      let alt := (splitext path).1 ++ ".xlsx" in
      if path_exists env alt then Some alt else None in
  match found with
  | None => Returns []
  | Some path =>
      let df := read_excel_any env path in
      if frame_empty df then Returns []
      else
        match lower_labels (labels df) ∅ with
        | Throws e => Throws e
        | Returns lower =>
            match lower !! ("t1" : str) with
            | None => Returns []
            | Some t1 =>
                let df := iloc df start stop in
                match column df t1 with
                | Throws e => Throws e
                | Returns slim =>
                    Returns ((λ v, MetaRow v (basename path)) <$> slim)
                end
            end
        end
  end.

Fixpoint load_parts (env : excel_files) (excel_dir : str)
    (l : list (str * (nat * nat))) : outcome load_error (list (list meta_row)) :=
  match l with
  | [] => Returns []
  | spec :: l' =>
      match load_part env excel_dir spec with
      | Throws e => Throws e
      | Returns part =>
          match load_parts env excel_dir l' with
          | Throws e => Throws e
          | Returns parts => Returns (part :: parts)
          end
      end
  end.

(** [load_selected_excels_only_t1]: the parts one after the other. *)
Definition load_selected_excels_only_t1 (env : excel_files) (excel_dir : str)
  : outcome load_error (list meta_row) :=
  match load_parts env excel_dir specs with
  | Throws e => Throws e
  | Returns parts => Returns (concat parts)
  end.

(** ** [main] *)

(** The four numbers of the report. *)
Record report := Report {
  excel_rows : nat;
  unique_object_groups : nat;
  object_groups_with_images : nat;
  object_groups_without_images : nat }.

(** What a run has to leave behind: the rows for [linked.csv], the rows for
    the misses log when there is one to write, and the numbers of the report
    when there is one to print. *)
Record run := Run {
  linked_csv : list link;
  misses_csv : option (list miss);
  printed : option report }.

Definition EXCEL_DIR (base_dir : str) : str :=
  path_join (path_join base_dir "Excel-Files") "Objektdaten".

Definition IMAGE_DIR (base_dir : str) : str :=
  path_join (path_join (path_join base_dir "Images") "Objektbilder")
            "Objektbilder".

Definition main (env : excel_files) (fs : filesystem) (base_dir : str)
  : outcome main_error run :=
  match load_selected_excels_only_t1 env (EXCEL_DIR base_dir) with
  | Throws e => Throws (FromLoad e)
  | Returns [] => Returns (Run [] None None)
  | Returns meta =>
      match build_links_like_group fs meta (IMAGE_DIR base_dir) with
      | Raise e => Throws (FromLink e)
      | Ok (linked, misses) =>
          let unique_prefixes := length linked in
          let with_images :=
            match linked with
            | [] => 0
            | _ => length (filter (λ r, 0 < row_image_count r) linked)
            end in
          let without_images := 0 in
          Returns (Run linked
                     (match misses with [] => None | _ => Some misses end)
                     (Some (Report (length meta) unique_prefixes with_images
                              without_images)))
      end
  end.

(** ** Words for statements about the loader and [main] *)

(** A cell or a label that is a string. *)
Definition is_str (v : pyval) : Prop := ∃ s, v = PStr s.

(** The file names a row of the loaded table can carry: those of [specs],
    and the same with the extension [.xlsx]. *)
Definition AK_names : list str :=
  [ "Liste_AK Kommunikation.xls" : str; "Liste_AK Kommunikation.xlsx" : str ].

Definition AEG_names : list str :=
  [ "Liste_AEG Produktsammlung.xls" : str;
    "Liste_AEG Produktsammlung.xlsx" : str ].

(** A folder with the first spreadsheet only: 303 rows, of which the last
    three hold identifiers in the column [T1], the second of three
    columns. *)
Definition demo_frame : frame := {|
  labels := [ PStr "Nr"; PStr "T1"; PStr "T2" ];
  nrows := 303;
  cell r c :=
    if bool_decide (c = 1) then
      if bool_decide (r = 300) then PStr " 1 / 1997 / 1063 0"
      else if bool_decide (r = 301) then PStr "no number here"
      else if bool_decide (r = 302) then PStr "1/1997/1063 2"
      else PNaN
    else PNum (Z.of_nat r) |}.

Definition demo_excel : excel_files := {|
  path_exists p :=
    bool_decide (p = ("/base/Excel-Files/Objektdaten/Liste_AK Kommunikation.xls" : str));
  pd_read_excel p eng :=
    if bool_decide (p = ("/base/Excel-Files/Objektdaten/Liste_AK Kommunikation.xls" : str))
    then match eng with
         | Some xlrd => Some demo_frame
         | _ => None
         end
    else None |}.

Definition demo_images : filesystem := {|
  isdir d :=
    bool_decide (d = ("/base/Images/Objektbilder/Objektbilder/1997" : str));
  isfile p :=
    bool_decide (p ∈ [ "/base/Images/Objektbilder/Objektbilder/1997/1-1997-1063-000.jpg" : str;
                       "/base/Images/Objektbilder/Objektbilder/1997/1-1997-1063-001.jpg" : str ]);
  listdir d :=
    if bool_decide (d = ("/base/Images/Objektbilder/Objektbilder/1997" : str))
    then Some [ "1-1997-1063-001.jpg" : str; "1-1997-1063-000.jpg" : str ]
    else None |}.

Definition demo_run : run :=
  Eval vm_compute in
    match main demo_excel demo_images "/base" with
    | Returns r => r
    | Throws _ => Run [] None None
    end.

Definition demo_excel_dir : str := "/base/Excel-Files/Objektdaten".

Definition demo_table : list meta_row :=
  Eval vm_compute in
    match load_selected_excels_only_t1 demo_excel demo_excel_dir with
    | Returns meta => meta
    | Throws _ => []
    end.

(** A folder in which every file holds a table with a number as the label of
    its second column. *)
Definition bad_excel : excel_files := {|
  path_exists _ := true;
  pd_read_excel _ _ := Some (Frame [ PStr "T1"; PNum 7 ] 1 (λ _ _, PNaN)) |}.

(** ** Further sample inputs for the aggregator *)

(** [demo_fs] with the year folder listed in another order. *)
Definition demo_fs_reordered : filesystem := {|
  isdir := isdir demo_fs;
  isfile := isfile demo_fs;
  listdir d :=
    if bool_decide (d = ("root/1997" : str)) then
      Some [ "sub" : str; "1-1997-1063-001.jpg" : str;
             "1-1997-1063-000.JPG" : str; "2-1997-9999-000.jpg" : str;
             "1-1997-1063-002.txt" : str ]
    else listdir demo_fs d |}.

(** The year folder of [demo_fs] and nothing else. *)
Definition demo_fs_year : filesystem := {|
  isdir d := bool_decide (d = ("root/1997" : str));
  isfile := isfile demo_fs;
  listdir d :=
    if bool_decide (d = ("root/1997" : str)) then listdir demo_fs d else None |}.

(** A year folder that exists and cannot be listed. *)
Definition locked_fs : filesystem := {|
  isdir d := bool_decide (d = ("root/1997" : str));
  isfile _ := false;
  listdir _ := None |}.


(** Two objects with images in [demo_fs]. *)
Definition two_meta : list meta_row :=
  [ MetaRow (PStr "1/1997/1063 0") "a.xls";
    MetaRow (PStr "2/1997/9999 0") "a.xls" ].

Definition two_rows : list link :=
  Eval vm_compute in
    match build_links_like_group demo_fs two_meta "root" with
    | Ok (rs, _) => rs
    | Raise _ => []
    end.

Definition two_row_1 : link :=
  Eval vm_compute in default demo_row (two_rows !! 0).

Definition two_row_2 : link :=
  Eval vm_compute in default demo_row (two_rows !! 1).

(** The identifier of [demo_ident] written without spaces, with another
    series. *)
Definition demo_ident_plain : ident :=
  Ident "12" [] [] "1997" [] [] "063" " " "9".
Example parse_1997 :
  parse_object_number (PStr "1/1997/1063 0")
  = Ok (Some (<["year" := "1997" : str]> (<["base_prefix" := "1-1997-1063-" : str]> ∅))).
Proof. vm_compute. reflexivity. Qed.

Example parse_spaces :
  parse_object_number (PStr "Inv. 12 / 1997 /  063   5x")
  = Ok (Some (<["year" := "1997" : str]> (<["base_prefix" := "12-1997-063-" : str]> ∅))).
Proof. vm_compute. reflexivity. Qed.

Example parse_fail : parse_object_number (PStr "no number here") = Ok None.
Proof. vm_compute. reflexivity. Qed.

(** ** Facts about the character classes *)

Lemma space_not_digit c : is_space c = true → is_digit c = false.
Proof.
  unfold is_space, is_digit. intros H.
  destruct (48 <=? code c)%N eqn:E1; [|done].
  destruct (code c <=? 57)%N eqn:E2; [|done].
  apply N.leb_le in E1, E2.
  repeat (apply orb_prop in H as [H|H]);
    try (apply andb_prop in H as [H1 H2]; apply N.leb_le in H1, H2; lia);
    apply N.eqb_eq in H; lia.
Qed.

Lemma digit_not_space c : is_digit c = true → is_space c = false.
Proof.
  intros H. destruct (is_space c) eqn:E; [|done].
  apply space_not_digit in E. congruence.
Qed.

Lemma stops_app_spaces w r :
  spaces w → stops is_digit r → stops is_digit (w ++ r).
Proof.
  intros Hw Hr. destruct w as [|c w]; [done|].
  simpl. apply space_not_digit. by inversion Hw.
Qed.

Lemma stops_digits d r : digits d → d ≠ [] → stops is_space (d ++ r).
Proof.
  intros Hd Hne. destruct d as [|c d]; [done|].
  simpl. apply digit_not_space. by inversion Hd.
Qed.

Lemma stops_spaces w r : spaces w → w ≠ [] → stops is_digit (w ++ r).
Proof.
  intros Hw Hne. destruct w as [|c w]; [done|].
  simpl. apply space_not_digit. by inversion Hw.
Qed.

(** ** Facts about [span] and [backtrack] *)

Lemma span_app cls hi a b :
  Forall (λ c, cls c = true) a → within hi (length a) →
  stops cls b ∨ hi = Some (length a) →
  span cls hi (a ++ b) = length a.
Proof.
  intros Ha. revert hi. unfold within.
  induction Ha as [|c a Hc Ha IH]; intros hi Hw Hb.
  - simpl in *. destruct b as [|c b]; [by destruct hi as [[|h]|]|].
    destruct hi as [[|h]|]; simpl; [done| |].
    + destruct Hb as [Hb|Hb]; [|done]. simpl in Hb. by rewrite Hb.
    + destruct Hb as [Hb|Hb]; [|done]. simpl in Hb. by rewrite Hb.
  - destruct hi as [[|h]|]; simpl in *; [lia| |].
    + rewrite Hc. f_equal. apply IH; [lia|].
      destruct Hb as [Hb|Hb]; [by left|right]. simpl. congruence.
    + rewrite Hc. f_equal. apply IH; [done|].
      destruct Hb as [Hb|Hb]; [by left|done].
Qed.

Lemma span_take cls hi s m :
  m ≤ span cls hi s →
  Forall (λ c, cls c = true) (take m s) ∧ length (take m s) = m ∧ within hi m.
Proof.
  revert hi m. unfold within. induction s as [|c s IH]; intros hi m Hm.
  - assert (m = 0) as -> by (destruct hi as [[|h]|]; simpl in Hm; lia).
    simpl. split; [constructor|]. split; [done|].
    destruct hi; simpl; lia.
  - destruct m as [|m].
    { simpl. split; [constructor|]. split; [done|]. destruct hi; simpl; lia. }
    destruct hi as [[|h]|]; simpl in Hm; [lia| |].
    + destruct (cls c) eqn:Hc; [|lia].
      destruct (IH (Some h) m) as (H1 & H2 & H3); [simpl; lia|].
      simpl. split; [by constructor|]. split; [by f_equal|]. simpl in H3. lia.
    + destruct (cls c) eqn:Hc; [|lia].
      destruct (IH None m) as (H1 & H2 & H3); [simpl; lia|].
      simpl. split; [by constructor|]. split; [by f_equal|done].
Qed.

Lemma span_stops cls s : stops cls (drop (span cls None s) s).
Proof.
  induction s as [|c s IH]; [done|].
  simpl. destruct (cls c) eqn:Hc; [done|]. simpl. done.
Qed.

Lemma backtrack_first {R} (k : nat → option R) lo n r :
  lo ≤ n → k n = Some r → backtrack k lo n = Some r.
Proof.
  intros Hlo Hk. destruct n; simpl; case_decide; try lia; by rewrite Hk.
Qed.

Lemma backtrack_Some {R} (k : nat → option R) lo n r :
  backtrack k lo n = Some r →
  ∃ m, lo ≤ m ≤ n ∧ k m = Some r ∧ ∀ j, m < j ≤ n → k j = None.
Proof.
  induction n as [|n IH]; simpl; case_decide as Hlt; try done.
  - destruct (k 0) eqn:Hk; [|done]. intros [= <-].
    exists 0. split; [lia|]. split; [done|]. intros; lia.
  - destruct (k (S n)) eqn:Hk.
    + intros [= <-]. exists (S n). split; [lia|]. split; [done|]. intros; lia.
    + intros H. apply IH in H as (m & Hm & Hkm & Hmax).
      exists m. split; [lia|]. split; [done|].
      intros j Hj. destruct (decide (j = S n)) as [->|]; [done|].
      apply Hmax. lia.
Qed.

(** ** One node of the pattern at a time *)

Lemma rep_greedy (cap : bool) (cls : ascii → bool) lo hi re (a b : str) caps m :
  Forall (λ c, cls c = true) a → lo ≤ length a → within hi (length a) →
  stops cls b ∨ hi = Some (length a) →
  match_nodes re b (if cap then a :: caps else caps) = Some m →
  match_nodes (Rep cap cls lo hi :: re) (a ++ b) caps = Some m.
Proof.
  intros Ha Hlo Hhi Hb Hm. simpl. rewrite span_app by done.
  apply backtrack_first; [done|].
  by rewrite take_app_length, drop_app_length.
Qed.

Lemma rep_step (cap : bool) (cls : ascii → bool) lo hi re (s : str) caps m :
  match_nodes (Rep cap cls lo hi :: re) s caps = Some m →
  ∃ a b : str, s = a ++ b ∧ Forall (λ c, cls c = true) a ∧ lo ≤ length a
    ∧ within hi (length a)
    ∧ match_nodes re b (if cap then a :: caps else caps) = Some m.
Proof.
  simpl. intros H. apply backtrack_Some in H as (n & Hn & Hk & _).
  destruct (span_take cls hi s n) as (H1 & H2 & H3); [lia|].
  exists (take n s), (drop n s). rewrite take_drop, H2.
  repeat split; try done. lia.
Qed.

Lemma rep_last (cap : bool) (cls : ascii → bool) lo (s : str) caps m :
  match_nodes [Rep cap cls lo None] s caps = Some m →
  ∃ a b : str, s = a ++ b ∧ Forall (λ c, cls c = true) a ∧ lo ≤ length a
    ∧ stops cls b ∧ m = rev (if cap then a :: caps else caps).
Proof.
  simpl. intros H. apply backtrack_Some in H as (n & Hn & Hk & Hmax).
  assert (n = span cls None s) as ->.
  { destruct (decide (n = span cls None s)) as [|Hne]; [done|].
    by specialize (Hmax (span cls None s) ltac:(lia)). }
  destruct (span_take cls None s (span cls None s)) as (H1 & H2 & _); [lia|].
  exists (take (span cls None s) s), (drop (span cls None s) s).
  rewrite take_drop, H2. repeat split; try done; try lia.
  - apply span_stops.
  - by injection Hk.
Qed.

Lemma lit_step c re s caps m :
  match_nodes (Lit c :: re) s caps = Some m →
  ∃ b, s = c :: b ∧ match_nodes re b caps = Some m.
Proof.
  simpl. destruct s as [|c' s]; [done|]. case_decide; [|done].
  subst. eauto.
Qed.

Lemma lit_greedy c re (b : str) caps m :
  match_nodes re b caps = Some m →
  match_nodes (Lit c :: re) ([c] ++ b) caps = Some m.
Proof. intros H. simpl. by case_decide. Qed.

Global Arguments match_nodes : simpl never.

(** ** The matcher against the identifier shape *)

Lemma nonempty_length {A} (l : list A) : l ≠ [] → 1 ≤ length l.
Proof. destruct l; simpl; [done|lia]. Qed.

(** Concatenations nested to the right, with the literals unfolded. *)
Ltac reassoc :=
  repeat (progress (rewrite <- ?(assoc_L (++)); simpl)).

Lemma length_nonempty {A} (l : list A) : 1 ≤ length l → l ≠ [].
Proof. destruct l; simpl; [lia|done]. Qed.

Lemma match_here_maximal i post :
  well_shaped i → stops is_digit post →
  match_here (text_of i ++ post) = Some (groups_of i).
Proof.
  destruct i as [g w1 w2 y w3 w4 q w5 t].
  unfold well_shaped, text_of, groups_of, match_here, OBJ_RE.
  cbn [id_group id_w1 id_w2 id_year id_w3 id_w4 id_sequence id_w5 id_series].
  intros ([Hg Hgne] & [Hw1 Hw2] & [Hy Hylen] & [Hw3 Hw4] & [Hq Hqlen]
          & [Hw5 Hw5ne] & [Ht Htne]) Hpost.
  change (list_ascii_of_string "/") with ["/"%char].
  rewrite <- !(assoc_L (++)).
  apply rep_greedy; [done|by apply nonempty_length|done| |].
  { left. by apply stops_app_spaces. }
  apply rep_greedy; [done|lia|done|by left|].
  apply lit_greedy.
  apply rep_greedy; [done|lia|done|left; apply stops_digits; [done|] |].
  { intros ->. done. }
  apply rep_greedy; [done|lia|simpl; lia|by right; f_equal|].
  apply rep_greedy; [done|lia|done|by left|].
  apply lit_greedy.
  apply rep_greedy; [done|lia|done|left; apply stops_digits; [done|] |].
  { intros ->. simpl in *. lia. }
  apply rep_greedy; [done|lia|simpl; lia|left; by apply stops_spaces|].
  apply rep_greedy; [done|by apply nonempty_length|done|left; by apply stops_digits|].
  apply rep_greedy; [done|by apply nonempty_length|done|by left|].
  done.
Qed.

Lemma match_here_sound s m :
  match_here s = Some m →
  ∃ i post, well_shaped i ∧ s = text_of i ++ post ∧ stops is_digit post
    ∧ m = groups_of i.
Proof.
  unfold match_here, OBJ_RE. intros H.
  apply rep_step in H as (g & r & -> & Hg & Hglen & _ & H).
  apply rep_step in H as (w1 & r1 & -> & Hw1 & _ & _ & H).
  apply lit_step in H as (r2 & -> & H).
  apply rep_step in H as (w2 & r3 & -> & Hw2 & _ & _ & H).
  apply rep_step in H as (y & r4 & -> & Hy & Hylo & Hyhi & H).
  apply rep_step in H as (w3 & r5 & -> & Hw3 & _ & _ & H).
  apply lit_step in H as (r6 & -> & H).
  apply rep_step in H as (w4 & r7 & -> & Hw4 & _ & _ & H).
  apply rep_step in H as (q & r8 & -> & Hq & Hqlo & Hqhi & H).
  apply rep_step in H as (w5 & r9 & -> & Hw5 & Hw5len & _ & H).
  apply rep_last in H as (t & post & -> & Ht & Htlen & Hpost & ->).
  exists (Ident g w1 w2 y w3 w4 q w5 t), post.
  unfold within in *. split; [|split; [|split]]; try done.
  - unfold well_shaped; cbn.
    repeat split; try done; try lia; by apply length_nonempty.
  - unfold text_of; cbn. by reassoc.
Qed.

(** Where the text goes on with digits after the series, the last group takes
    them as well; the first three groups are those of the identifier. *)
Lemma match_here_complete i post :
  well_shaped i →
  ∃ t, match_here (text_of i ++ post)
       = Some [id_group i; id_year i; id_sequence i; t].
Proof.
  intros Hi.
  set (n := span is_digit None post).
  set (i' := Ident (id_group i) (id_w1 i) (id_w2 i) (id_year i) (id_w3 i)
                   (id_w4 i) (id_sequence i) (id_w5 i)
                   (id_series i ++ take n post)).
  assert (text_of i ++ post = text_of i' ++ drop n post) as ->.
  { unfold text_of; cbn. reassoc. by rewrite take_drop. }
  exists (id_series i'). apply (match_here_maximal i').
  - destruct Hi as (H1 & H2 & H3 & H4 & H5 & H6 & [H7 H8]).
    repeat split; try done; try apply H1; try apply H2; try apply H3;
      try apply H4; try apply H5; try apply H6; cbn.
    + apply Forall_app; split; [done|].
      by destruct (span_take is_digit None post n) as (? & _).
    + intros Heq. apply app_eq_nil in Heq as [? _]. done.
  - apply span_stops.
Qed.

(** ** Facts about [search] *)

Lemma search_Some s m :
  search s = Some m →
  ∃ pre r, s = pre ++ r ∧ match_here r = Some m
    ∧ ∀ pre' r', s = pre' ++ r' → length pre' < length pre →
        match_here r' = None.
Proof.
  induction s as [|c s IH]; simpl.
  - by vm_compute.
  - destruct (match_here (c :: s)) eqn:E.
    + intros [= <-]. exists [], (c :: s).
      repeat split; try done; simpl; intros; lia.
    + intros H. apply IH in H as (pre & r & -> & Hr & Hmin).
      exists (c :: pre), r. repeat split; try done.
      intros [|c' pre'] r' Heq Hlen.
      * simpl in Heq. by subst.
      * simpl in Heq, Hlen. injection Heq as -> Heq.
        apply (Hmin pre'); [done|lia].
Qed.

Lemma search_None s pre r :
  search s = None → s = pre ++ r → match_here r = None.
Proof.
  revert pre. induction s as [|c s IH]; intros pre; simpl.
  - intros _ Heq. symmetry in Heq. apply app_eq_nil in Heq as [_ ->]. done.
  - destruct (match_here (c :: s)) eqn:E; [done|]. intros H Heq.
    destruct pre as [|c' pre]; simpl in Heq; [by subst|].
    injection Heq as -> Heq. by apply (IH pre).
Qed.

Lemma search_first s pre r m :
  s = pre ++ r → match_here r = Some m →
  (∀ pre' r', s = pre' ++ r' → length pre' < length pre → match_here r' = None) →
  search s = Some m.
Proof.
  revert s. induction pre as [|c pre IH]; intros s -> Hr Hmin.
  - simpl. destruct r; [by vm_compute in Hr|]. simpl. by rewrite Hr.
  - simpl. rewrite (Hmin [] (c :: pre ++ r)); [|done|simpl; lia].
    apply IH; [done|done|].
    intros pre' r' Heq Hlen. apply (Hmin (c :: pre')); [|simpl; lia].
    simpl. by f_equal.
Qed.

(** ** [parse_object_number] against the identifier shape *)

Lemma first_occurrence_parse s pre i post :
  first_occurrence s pre i post →
  parse_object_number (PStr s)
  = Ok (Some (key_dict (id_year i) (prefix_of i))).
Proof.
  intros (Hi & Hs & Hmin).
  destruct (match_here_complete i post Hi) as [t Ht].
  unfold parse_object_number.
  rewrite (search_first s pre (text_of i ++ post) _ Hs Ht); [done|].
  intros pre' r' Hs' Hlen.
  destruct (match_here r') as [m|] eqn:E; [|done].
  apply match_here_sound in E as (i' & post' & Hi' & -> & _).
  specialize (Hmin pre' i' post' Hi' Hs'). lia.
Qed.

Lemma parse_str_cases s :
  parse_object_number (PStr s) = Ok None ∧ search s = None
  ∨ ∃ pre i post, first_occurrence s pre i post.
Proof.
  destruct (search s) as [m|] eqn:E.
  - right. apply search_Some in E as (pre & r & Hs & Hr & Hmin).
    apply match_here_sound in Hr as (i & post & Hi & -> & _).
    exists pre, i, post. split; [done|]. split; [done|].
    intros pre' i' post' Hi' Hs'.
    destruct (decide (length pre ≤ length pre')) as [|Hlt]; [done|].
    destruct (match_here_complete i' post' Hi') as [t Ht].
    rewrite (Hmin pre' (text_of i' ++ post')) in Ht; [done|done|lia].
  - left. unfold parse_object_number. by rewrite E.
Qed.

Lemma contains_pattern_first s :
  contains_pattern s → ∃ pre i post, first_occurrence s pre i post.
Proof.
  intros (pre & i & post & Hi & Hs).
  destruct (parse_str_cases s) as [[_ E]|H]; [|done].
  destruct (match_here_complete i post Hi) as [t Ht].
  by rewrite (search_None s pre _ E Hs) in Ht.
Qed.

Lemma first_occurrence_contains s pre i post :
  first_occurrence s pre i post → contains_pattern s.
Proof. intros (Hi & Hs & _). by exists pre, i, post. Qed.

(** The result is [None] or a dictionary with the two keys; no exception. *)
Lemma parse_cases v :
  parse_object_number v = Ok None
  ∨ ∃ s pre i post, v = PStr s ∧ first_occurrence s pre i post
      ∧ parse_object_number v = Ok (Some (key_dict (id_year i) (prefix_of i))).
Proof.
  destruct v as [s| |z]; [|by left..].
  destruct (parse_str_cases s) as [[H _]|(pre & i & post & H)]; [by left|].
  right. exists s, pre, i, post. split; [done|]. split; [done|].
  by apply (first_occurrence_parse s pre i post).
Qed.

Lemma first_occurrence_no_digits pre i post :
  well_shaped i → Forall (λ c, is_digit c = false) pre →
  first_occurrence (pre ++ text_of i ++ post) pre i post.
Proof.
  intros Hi Hpre. split; [done|]. split; [done|].
  intros pre' i' post' Hi' Heq.
  destruct (decide (length pre ≤ length pre')) as [|Hlt]; [done|]. exfalso.
  destruct (lookup_lt_is_Some_2 pre (length pre')) as [c Hc]; [lia|].
  assert (is_digit c = false) as Hnd.
  { rewrite Forall_forall in Hpre. apply Hpre. by eapply list_elem_of_lookup_2. }
  destruct Hi' as ([Hg Hgne] & _).
  destruct i' as [[|c' g] w1 w2 y w3 w4 q w5 t]; [done|].
  apply (f_equal (λ l, l !! length pre')) in Heq.
  rewrite lookup_app_l, Hc in Heq by lia.
  unfold text_of in Heq. simpl in Heq.
  rewrite list_lookup_middle in Heq by done.
  injection Heq as ->. inversion Hg; congruence.
Qed.

Lemma with_series_well_shaped i t :
  well_shaped i → digits t → t ≠ [] → well_shaped (with_series i t).
Proof.
  intros (H1 & H2 & H3 & H4 & H5 & H6 & _) Ht Hne.
  by repeat split; try apply H1; try apply H2; try apply H3; try apply H4;
    try apply H5; try apply H6.
Qed.

(** C3: a raw string that contains the pattern (an identifier [i] between
    any [pre] and [post]) has a first occurrence of the pattern, the search
    not being anchored, and for the pieces g, yyyy, sss of the first
    occurrence [parse_object_number] returns the key with year yyyy and
    prefix g-yyyy-sss-.  The series digits do not enter the key: any other
    text whose first occurrence has the same g, yyyy and sss gets the same
    key.  In particular, when no digit comes before the identifier, the key
    is that of [i], and it stays the same when the series of [i] and the
    text behind it are replaced. *)
Theorem parse_object_number_key (raw pre : str) (i : ident) (post : str) :
  well_shaped i → raw = pre ++ text_of i ++ post →
  (∃ pre0 i0 post0, first_occurrence raw pre0 i0 post0)
  ∧ (∀ pre0 i0 post0, first_occurrence raw pre0 i0 post0 →
       parse_object_number (PStr raw)
       = Ok (Some (key_dict (id_year i0)
                     (id_group i0 ++ "-" ++ id_year i0 ++ "-"
                      ++ id_sequence i0 ++ "-")))
       ∧ ∀ raw' pre' i' post',
           first_occurrence raw' pre' i' post' →
           id_group i' = id_group i0 → id_year i' = id_year i0 →
           id_sequence i' = id_sequence i0 →
           parse_object_number (PStr raw') = parse_object_number (PStr raw))
  ∧ (Forall (λ c, is_digit c = false) pre →
       parse_object_number (PStr raw)
       = Ok (Some (key_dict (id_year i)
                     (id_group i ++ "-" ++ id_year i ++ "-"
                      ++ id_sequence i ++ "-")))
       ∧ ∀ t' post', digits t' → t' ≠ [] →
           parse_object_number
             (PStr (pre ++ text_of (with_series i t') ++ post'))
           = parse_object_number (PStr raw)).
Proof.
  intros Hi Hraw. split.
  { apply contains_pattern_first. by exists pre, i, post. }
  split.
  - intros pre0 i0 post0 Hf.
    split; [by apply (first_occurrence_parse raw pre0 i0 post0)|].
    intros raw' pre' i' post' Hf' Hg Hy Hq.
    rewrite (first_occurrence_parse _ _ _ _ Hf),
      (first_occurrence_parse _ _ _ _ Hf').
    unfold prefix_of. by rewrite Hg, Hy, Hq.
  - intros Hpre. subst raw.
    pose proof (first_occurrence_no_digits pre i post Hi Hpre) as Hf.
    split; [by apply (first_occurrence_parse _ pre i post)|].
    intros t' post' Ht' Hne.
    pose proof (first_occurrence_no_digits pre _ post'
                  (with_series_well_shaped i t' Hi Ht' Hne) Hpre) as Hf'.
    by rewrite (first_occurrence_parse _ _ _ _ Hf),
      (first_occurrence_parse _ _ _ _ Hf').
Qed.

(** C4: an input that is not a string, that is the empty string, or that
    does not contain the pattern anywhere makes [parse_object_number] return
    [None]; it does not raise. *)
Theorem parse_object_number_none (v : pyval) :
  (∀ s, v ≠ PStr s) ∨ v = PStr [] ∨ (∃ s, v = PStr s ∧ ¬ contains_pattern s) →
  parse_object_number v = Ok None.
Proof.
  intros [H|[->|(s & -> & H)]].
  - destruct v as [s| |z]; [by destruct (H s)|done..].
  - by vm_compute.
  - destruct (parse_str_cases s) as [[Hp _]|(pre & i & post & Hf)]; [done|].
    destruct H. by apply (first_occurrence_contains s pre i post).
Qed.

(** C6, as the code has it: on a successful match the result has exactly the
    two fields [year] and [base_prefix], the year and the prefix
    g-yyyy-sss- of the first occurrence of the pattern; group and sequence
    are not fields of their own and the series is not in the result. *)
Theorem parse_object_number_fields (v : pyval) (d : gmap string str) :
  parse_object_number v = Ok (Some d) →
  ∃ s pre i post, v = PStr s ∧ first_occurrence s pre i post
    ∧ d !! "year" = Some (id_year i)
    ∧ d !! "base_prefix" = Some (prefix_of i)
    ∧ dom d = {[ "year"; "base_prefix" ]}.
Proof.
  intros H. destruct (parse_cases v) as [E|(s & pre & i & post & -> & Hf & E)].
  { congruence. }
  rewrite E in H. injection H as <-.
  exists s, pre, i, post. do 4 (split; [done|]).
  unfold key_dict. rewrite !dom_insert_L. set_solver.
Qed.

(** ** Trimming does not change what is parsed *)

Lemma match_here_not_digit c s :
  is_digit c = false → match_here (c :: s) = None.
Proof.
  intros Hc. unfold match_here, OBJ_RE.
  destruct (match_nodes _ _ _) as [m|] eqn:E; [|done].
  apply rep_step in E as ([|a l] & b & Heq & Ha & Hlen & _); simpl in *; [lia|].
  injection Heq as <- _. inversion Ha; congruence.
Qed.

Lemma search_lstrip s : search (lstrip s) = search s.
Proof.
  induction s as [|c s IH]; [done|].
  cbn [lstrip]. destruct (is_space c) eqn:Hc; [|done].
  rewrite IH. cbn [search].
  by rewrite match_here_not_digit by by apply space_not_digit.
Qed.

Lemma stops_snoc c post :
  is_digit c = false → stops is_digit post → stops is_digit (post ++ [c]).
Proof. by destruct post. Qed.

Lemma text_of_last i :
  well_shaped i → ∃ c, last (text_of i) = Some c ∧ is_digit c = true.
Proof.
  intros (_ & _ & _ & _ & _ & _ & [Ht Hne]).
  destruct (exists_last Hne) as (t & c & Heq).
  exists c. unfold text_of. rewrite Heq in *.
  rewrite !(assoc_L (++)), last_snoc. split; [done|].
  apply Forall_app in Ht as [_ Hc]. by inversion Hc.
Qed.

Lemma match_here_snoc s c :
  is_space c = true → match_here (s ++ [c]) = match_here s.
Proof.
  intros Hc. pose proof (space_not_digit c Hc) as Hd.
  destruct (match_here s) as [m|] eqn:E.
  - apply match_here_sound in E as (i & post & Hi & -> & Hpost & ->).
    rewrite <- (assoc_L (++)). apply match_here_maximal; [done|].
    by apply stops_snoc.
  - destruct (match_here (s ++ [c])) as [m|] eqn:E'; [|done].
    apply match_here_sound in E' as (i & post & Hi & Heq & Hpost & ->).
    destruct (decide (post = [])) as [->|Hne].
    + rewrite (right_id_L [] (++)) in Heq.
      destruct (text_of_last i Hi) as (d & Hlast & Hdig).
      rewrite <- Heq, last_snoc in Hlast. congruence.
    + destruct (exists_last Hne) as (post' & c' & ->).
      rewrite (assoc_L (++)) in Heq. apply app_inj_tail in Heq as [-> <-].
      rewrite match_here_maximal in E; [done|done|].
      destruct post'; [done|]. done.
Qed.

Lemma search_snoc s c : is_space c = true → search (s ++ [c]) = search s.
Proof.
  intros Hc. induction s as [|x s IH].
  - simpl. rewrite match_here_not_digit by by apply space_not_digit.
    by vm_compute.
  - change ((x :: s) ++ [c]) with (x :: (s ++ [c])). cbn [search].
    change (x :: (s ++ [c])) with ((x :: s) ++ [c]).
    by rewrite match_here_snoc, IH.
Qed.

Lemma search_app_spaces s w : spaces w → search (s ++ w) = search s.
Proof.
  intros Hw. revert s. induction Hw as [|c w Hc Hw IH]; intros s.
  - by rewrite (right_id_L [] (++)).
  - change (c :: w) with ([c] ++ w). rewrite (assoc_L (++)), IH.
    by apply search_snoc.
Qed.

Lemma lstrip_spec s : ∃ w, spaces w ∧ s = w ++ lstrip s.
Proof.
  induction s as [|c s (w & Hw & IH)].
  { exists []. split; [constructor|done]. }
  cbn [lstrip]. destruct (is_space c) eqn:Hc.
  - exists (c :: w). split; [by constructor|]. simpl. by f_equal.
  - exists []. split; [constructor|done].
Qed.

Lemma rstrip_spec s : ∃ w, spaces w ∧ s = rstrip s ++ w.
Proof.
  destruct (lstrip_spec (rev s)) as (w & Hw & Heq).
  exists (rev w). split; [by apply Forall_rev|].
  unfold rstrip. rewrite <- rev_app_distr, <- Heq. by rewrite rev_involutive.
Qed.

Lemma search_strip s : search (strip s) = search s.
Proof.
  unfold strip. destruct (rstrip_spec (lstrip s)) as (w & Hw & Heq).
  rewrite <- (search_lstrip s). rewrite Heq at 2.
  by rewrite search_app_spaces.
Qed.

Lemma parse_strip_cell v :
  parse_object_number (strip_cell v) = parse_object_number v.
Proof. destruct v; [|done..]. simpl. by rewrite search_strip. Qed.

(** ** The order on text *)

Lemma code_inj a b : code a = code b → a = b.
Proof.
  unfold code. intros H.
  by rewrite <- (ascii_N_embedding a), <- (ascii_N_embedding b), H.
Qed.

Global Instance str_le_total : Total str_le.
Proof.
  intros s. unfold str_le. induction s as [|a s IH]; intros [|b t]; simpl; auto.
  destruct (N.ltb_spec (code a) (code b)), (N.ltb_spec (code b) (code a));
    auto; try lia.
  assert (code a = code b) as Heq by lia.
  rewrite Heq, N.eqb_refl. apply IH.
Qed.

Global Instance str_le_trans : Transitive str_le.
Proof.
  intros s. unfold str_le.
  induction s as [|a s IH]; intros [|b t] [|c u]; simpl; try done.
  destruct (N.ltb_spec (code a) (code b)), (N.ltb_spec (code b) (code c)),
    (N.ltb_spec (code a) (code c)); try done; try lia;
    destruct (N.eqb_spec (code a) (code b)), (N.eqb_spec (code b) (code c)),
      (N.eqb_spec (code a) (code c)); try done; try lia.
  apply IH.
Qed.

Global Instance str_le_antisymm : AntiSymm (=) str_le.
Proof.
  intros s. unfold str_le.
  induction s as [|a s IH]; intros [|b t]; simpl; try done.
  destruct (N.ltb_spec (code a) (code b)), (N.ltb_spec (code b) (code a));
    try lia;
    destruct (N.eqb_spec (code a) (code b)), (N.eqb_spec (code b) (code a));
      try done; try lia.
  intros H1 H2. f_equal; [by apply code_inj|by apply IH].
Qed.

Lemma str_le_app a x y : str_le (a ++ x) (a ++ y) ↔ str_le x y.
Proof.
  unfold str_le. induction a as [|c a IH]; simpl; [done|].
  by rewrite N.ltb_irrefl, N.eqb_refl.
Qed.

Lemma sorted_Sorted l : Sorted str_le (sorted l).
Proof. apply (Sorted_merge_sort str_le). Qed.

Lemma sorted_Permutation l : sorted l ≡ₚ l.
Proof. apply (merge_sort_Permutation str_le). Qed.

(** ** Base names and joined paths *)

Lemma rfind_from_notin c s i : c ∉ s → rfind_from c s i = (-1)%Z.
Proof.
  revert i. induction s as [|x s IH]; intros i Hc; simpl; [done|].
  apply not_elem_of_cons in Hc as [Hne Hc]. rewrite IH by done. simpl.
  by rewrite bool_decide_eq_false_2.
Qed.

Lemma rfind_from_last c d n i :
  c ∉ n → (0 ≤ i)%Z →
  rfind_from c (d ++ c :: n) i = (i + Z.of_nat (length d))%Z.
Proof.
  intros Hc. revert i. induction d as [|x d IH]; intros i Hi; simpl.
  - rewrite rfind_from_notin by done. simpl.
    rewrite bool_decide_eq_true_2 by done. lia.
  - rewrite IH by lia.
    destruct (Z.leb_spec 0 (i + 1 + Z.of_nat (length d))); lia.
Qed.

Lemma basename_plain n : "/"%char ∉ n → basename n = n.
Proof. intros H. unfold basename, rfind. by rewrite rfind_from_notin. Qed.

Lemma basename_in_dir d n :
  "/"%char ∉ n → basename ((d ++ ["/"%char]) ++ n) = n.
Proof.
  intros H. unfold basename, rfind.
  rewrite <- (assoc_L (++)). simpl. rewrite rfind_from_last by done.
  replace (Z.to_nat (0 + Z.of_nat (length d) + 1))
    with (length (d ++ ["/"%char]))
    by (rewrite length_app; simpl; lia).
  change (d ++ "/"%char :: n) with (d ++ ["/"%char] ++ n).
  rewrite (assoc_L (++)). apply drop_app_length.
Qed.

(** Joining a directory and a plain name puts the name behind a fixed text
    that is empty or ends with a slash. *)
Lemma path_join_plain d :
  ∃ d', (d' = [] ∨ ∃ d'', d' = d'' ++ ["/"%char])
    ∧ ∀ n, "/"%char ∉ n → path_join d n = d' ++ n.
Proof.
  assert (∀ n : str, "/"%char ∉ n → startswith n "/" = false) as Hsw.
  { intros [|c n] Hn; [done|]. simpl. case_decide as E; [|done].
    destruct Hn. rewrite E. by left. }
  destruct (bool_decide (d = [])) eqn:E1.
  - exists []. split; [by left|]. intros n Hn.
    unfold path_join. rewrite Hsw, E1 by done. simpl.
    by apply bool_decide_eq_true in E1 as ->.
  - destruct (endswith_slash d) eqn:E2.
    + exists d. split.
      * right. unfold endswith_slash in E2.
        destruct (last d) as [c|] eqn:E3; [|done].
        apply bool_decide_eq_true in E2 as ->. by apply last_Some in E3.
      * intros n Hn. unfold path_join. by rewrite Hsw, E1, E2.
    + exists (d ++ ["/"%char]). split; [right; by exists d|].
      intros n Hn. unfold path_join. rewrite Hsw, E1, E2 by done. simpl.
      by rewrite <- (assoc_L (++)).
Qed.

Lemma Sorted_basename d' l :
  (d' = [] ∨ ∃ d'', d' = d'' ++ ["/"%char]) →
  Forall (λ p, ∃ n, ("/"%char ∉ n) ∧ p = d' ++ n) l →
  Sorted str_le l → Sorted str_le (basename <$> l).
Proof.
  intros Hd' Hl.
  assert (∀ n, "/"%char ∉ n → basename (d' ++ n) = n) as Hbase.
  { intros n Hn. destruct Hd' as [->|[d'' ->]];
      [by apply basename_plain|by apply basename_in_dir]. }
  induction 1 as [|p l Hs IH Hhd]; simpl; [constructor|].
  apply Forall_cons in Hl as [(n & Hn & ->) Hl].
  constructor; [by apply IH|].
  destruct Hhd as [|q l Hpq]; simpl; [constructor|].
  apply Forall_cons in Hl as [(n' & Hn' & ->) _].
  constructor. rewrite !Hbase by done. by apply str_le_app in Hpq.
Qed.

Lemma basename_path_join d n : "/"%char ∉ n → basename (path_join d n) = n.
Proof.
  intros Hn. destruct (path_join_plain d) as (d' & Hd' & Hjoin).
  rewrite Hjoin by done.
  destruct Hd' as [->|[d'' ->]];
    [by apply basename_plain|by apply basename_in_dir].
Qed.

(** ** [find_matching_files_in_year] *)

Lemma startswith_spec s p : startswith s p = true ↔ ∃ r, s = p ++ r.
Proof.
  revert s. induction p as [|a p IH]; intros s; simpl.
  - split; [by exists s|done].
  - destruct s as [|b s].
    + split; [done|]. by intros (r & ?).
    + case_decide as Hab.
      * subst. rewrite IH. split; intros (r & Hr); exists r; [by f_equal|].
        by injection Hr.
      * split; [done|]. intros (r & Hr). injection Hr as -> _. done.
Qed.

Lemma scan_name_spec fs d prefix out name :
  scan_name fs d (lower prefix) out name
  = out ++ (if decide (qualifies fs d prefix name)
            then [path_join d name] else []).
Proof.
  unfold scan_name.
  destruct (decide (qualifies fs d prefix name)) as [(H1 & H2 & H3)|Hn].
  - rewrite H1. simpl. rewrite bool_decide_eq_false_2 by (by intros ?).
    by rewrite H3.
  - rewrite (right_id_L [] (++)).
    destruct (isfile fs (path_join d name)) eqn:H1; [|done]. simpl.
    case_bool_decide as H2; [done|].
    destruct (startswith _ _) eqn:H3; [|done].
    by destruct Hn.
Qed.

Lemma scan_names_spec fs d prefix out names :
  foldl (scan_name fs d (lower prefix)) out names
  = out ++ (path_join d <$> filter (qualifies fs d prefix) names).
Proof.
  revert out. induction names as [|name names IH]; intros out; simpl.
  - by rewrite (right_id_L [] (++)).
  - rewrite IH, scan_name_spec, filter_cons.
    destruct (decide (qualifies fs d prefix name)); simpl.
    + by rewrite <- (assoc_L (++)).
    + by rewrite (right_id_L [] (++)).
Qed.

Lemma find_matching_files_in_year_children fs root year prefix names :
  children fs (path_join root year) = Some names →
  find_matching_files_in_year fs root year prefix
  = Ok (sorted (path_join (path_join root year)
                  <$> filter (qualifies fs (path_join root year) prefix) names)).
Proof.
  unfold children, find_matching_files_in_year, os_listdir.
  destruct (isdir fs (path_join root year)); simpl.
  - intros ->. simpl. by rewrite scan_names_spec.
  - by intros [= <-].
Qed.

(** C2: the result of [find_matching_files_in_year] is made of exactly the
    direct children of <root>/<year> that are regular files, whose
    extension, lower-cased, is one of the six allowed ones, and whose
    lower-cased name has the lower-cased prefix as a true prefix; every
    result is the path of a direct child (directory listings giving plain
    names, it is the directory joined with its own base name), so nothing
    from a nested directory appears; and the result is sorted by full
    path. *)
Theorem find_matching_files_in_year_spec fs (root year prefix : str) names :
  children fs (path_join root year) = Some names →
  ∃ out, find_matching_files_in_year fs root year prefix = Ok out
    ∧ Sorted str_le out
    ∧ out ≡ₚ path_join (path_join root year)
               <$> filter (qualifies fs (path_join root year) prefix) names
    ∧ (∀ p, p ∈ out ↔
         ∃ name, name ∈ names ∧ p = path_join (path_join root year) name
           ∧ isfile fs p = true
           ∧ lower (splitext name).2 ∈ ALLOWED_EXTS
           ∧ ∃ rest, lower name = lower prefix ++ rest)
    ∧ (∀ ext : str, ext ∈ ALLOWED_EXTS ↔
         ext = ".jpg" ∨ ext = ".jpeg" ∨ ext = ".png" ∨ ext = ".tif"
         ∨ ext = ".tiff" ∨ ext = ".bmp")
    ∧ (names_plain fs →
       ∀ p, p ∈ out →
         basename p ∈ names ∧ ("/"%char ∉ basename p)
         ∧ p = path_join (path_join root year) (basename p)).
Proof.
  intros Hc. eexists. split; [by apply find_matching_files_in_year_children|].
  split; [apply sorted_Sorted|]. split; [apply sorted_Permutation|].
  split; [|split].
  - intros p. rewrite sorted_Permutation, list_elem_of_fmap.
    split.
    + intros (name & -> & Hin). apply list_elem_of_filter in Hin as [Hq Hin].
      exists name. destruct Hq as (? & ? & ?%startswith_spec). done.
    + intros (name & Hin & -> & H1 & H2 & H3%startswith_spec).
      exists name. split; [done|]. apply list_elem_of_filter. by split.
  - intros ext. unfold ALLOWED_EXTS.
    rewrite !elem_of_union, !elem_of_singleton. tauto.
  - intros Hplain p. rewrite sorted_Permutation, list_elem_of_fmap.
    intros (name & -> & [_ Hin]%list_elem_of_filter).
    assert ("/"%char ∉ name) as Hname.
    { unfold children in Hc. destruct (isdir fs (path_join root year)).
      - pose proof (Hplain _ _ Hc) as Hall. rewrite Forall_forall in Hall.
        by apply Hall.
      - injection Hc as <-. by apply elem_of_nil in Hin. }
    by rewrite basename_path_join.
Qed.

(** C5: when <root>/<year> is not an existing directory the result is the
    empty list; nothing is raised and the directory is not listed. *)
Theorem find_matching_files_in_year_no_dir fs (root year prefix : str) :
  isdir fs (path_join root year) = false →
  find_matching_files_in_year fs root year prefix = Ok [].
Proof.
  intros H. unfold find_matching_files_in_year. by rewrite H.
Qed.

(** ** The steps of [build_links_like_group] without the dictionary *)

Lemma getitem_year y p : getitem (key_dict y p) "year" = Ok y.
Proof. unfold getitem, key_dict. by simplify_map_eq. Qed.

Lemma getitem_base_prefix y p : getitem (key_dict y p) "base_prefix" = Ok p.
Proof. unfold getitem, key_dict. by simplify_map_eq. Qed.

Lemma year_prefix_cases v :
  parse_object_number v = Ok None ∧ year_prefix v = None
  ∨ ∃ s y p, v = PStr s ∧ parse_object_number v = Ok (Some (key_dict y p))
      ∧ year_prefix v = Some (y, p).
Proof.
  destruct (parse_cases v) as [E|(s & pre & i & post & -> & _ & E)].
  - left. unfold year_prefix. by rewrite E.
  - right. exists s, (id_year i), (prefix_of i). split; [done|]. split; [done|].
    unfold year_prefix. rewrite E. unfold key_dict. by simplify_map_eq.
Qed.

Lemma year_prefix_strip_cell v : year_prefix (strip_cell v) = year_prefix v.
Proof. unfold year_prefix. by rewrite parse_strip_cell. Qed.

Lemma key_of_strip_cell v : key_of (strip_cell v) = key_of v.
Proof. unfold key_of. by rewrite year_prefix_strip_cell. Qed.

Lemma src_step_spec m r :
  src_step m r
  = Ok (match key_of (m_obj_id_raw r) with
        | Some k => <[k := default ∅ (m !! k) ∪ {[m_source_file r]}]> m
        | None => m
        end).
Proof.
  unfold src_step, key_of.
  destruct (year_prefix_cases (m_obj_id_raw r))
    as [[E1 E2]|(s & y & p & Hs & E1 & E2)]; rewrite E2; simpl.
  - destruct (m_obj_id_raw r); [by rewrite E1|done..].
  - rewrite Hs in *. rewrite E1. simpl.
    by rewrite getitem_year, getitem_base_prefix.
Qed.

Lemma link_step_spec fs root src_map st raw :
  link_step fs root src_map st raw
  = match year_prefix raw with
    | None =>
        Ok (State (rows st) (misses st ++ [Miss raw None None reason_no_number])
              (seen_prefixes st))
    | Some (y, p) =>
        if bool_decide ((y, lower p) ∈ seen_prefixes st) then Ok st
        else
          match find_matching_files_in_year fs root y p with
          | Raise e => Raise e
          | Ok [] =>
              Ok (State (rows st)
                    (misses st ++ [Miss raw (Some y) (Some p) (reason_no_files y p)])
                    (seen_prefixes st ∪ {[(y, lower p)]}))
          | Ok matches =>
              Ok (State
                    (rows st ++ [Link raw y p (basename <$> matches)
                                   (length matches)
                                   (str_join ", "
                                      (sorted (elements
                                         (default ∅ (src_map !! (y, lower p))))))])
                    (misses st) (seen_prefixes st ∪ {[(y, lower p)]}))
          end
    end.
Proof.
  unfold link_step.
  destruct (year_prefix_cases raw) as [[E1 E2]|(s & y & p & Hs & E1 & E2)];
    rewrite E1, E2; simpl; [done|].
  rewrite getitem_year, getitem_base_prefix. simpl.
  case_bool_decide; [done|].
  by destruct (find_matching_files_in_year fs root y p) as [[|]|].
Qed.

(** ** The second loop keeps its invariant *)

Lemma first_with_key_app processed l raw k :
  first_with_key processed raw k → first_with_key (processed ++ l) raw k.
Proof.
  intros (l1 & l2 & -> & Hk & Hfirst). exists l1, (l2 ++ l).
  split; [by rewrite <- (assoc_L (++))|done].
Qed.

Lemma first_with_key_last processed raw k :
  key_of raw = Some k → (∀ x, x ∈ processed → key_of x ≠ Some k) →
  first_with_key (processed ++ [raw]) raw k.
Proof. intros Hk Hp. by exists processed, []. Qed.

Lemma row_ok_app fs root src_map processed l r :
  row_ok fs root src_map processed r →
  row_ok fs root src_map (processed ++ l) r.
Proof.
  intros (y & p & matches & H1 & H2 & H3 & H4 & H5).
  exists y, p, matches. eauto 10 using first_with_key_app.
Qed.

Lemma miss_ok_app fs root processed l m :
  miss_ok fs root processed m → miss_ok fs root (processed ++ l) m.
Proof.
  intros [(H1 & H2 & H3)|(y & p & H1 & H2 & H3 & H4)].
  - left. split; [done|]. split; [|done]. apply elem_of_app. by left.
  - right. exists y, p. eauto 10 using first_with_key_app.
Qed.

Lemma emitted_keys_miss_none rs ms m :
  miss_key m = None → emitted_keys rs (ms ++ [m]) = emitted_keys rs ms.
Proof.
  intros H. unfold emitted_keys. rewrite omap_app. simpl. rewrite H.
  by rewrite (right_id_L [] (++)).
Qed.

Lemma emitted_keys_miss_some rs ms m k :
  miss_key m = Some k → emitted_keys rs (ms ++ [m]) ≡ₚ k :: emitted_keys rs ms.
Proof.
  intros H. unfold emitted_keys. rewrite omap_app. simpl. rewrite H.
  rewrite (assoc_L (++)). by rewrite <- Permutation_cons_append.
Qed.

Lemma emitted_keys_row rs ms r :
  emitted_keys (rs ++ [r]) ms ≡ₚ row_key r :: emitted_keys rs ms.
Proof.
  unfold emitted_keys. rewrite fmap_app. simpl.
  rewrite <- (assoc_L (++)). simpl. by rewrite <- Permutation_middle.
Qed.

Lemma loop_inv_init fs root src_map : loop_inv fs root src_map [] (State [] [] ∅).
Proof.
  split; simpl; try done; try by constructor.
  - intros k. split; [set_solver|]. intros (x & Hx & _). by apply elem_of_nil in Hx.
  - intros k. unfold emitted_keys. simpl. set_solver.
Qed.

Section link_step.
Context (fs : filesystem) (root : str)
        (src_map : gmap (str * str) (gset str)).

(** A value without a key, or with a key seen before, leaves the keys as
    they are. *)
Lemma inv_seen_old (processed : list pyval) (seen : gset (str * str)) x :
  (∀ k, k ∈ seen ↔ ∃ x, x ∈ processed ∧ key_of x = Some k) →
  (∀ k, key_of x = Some k → k ∈ seen) →
  ∀ k, k ∈ seen ↔ ∃ x', x' ∈ processed ++ [x] ∧ key_of x' = Some k.
Proof.
  intros Hseen Hx k. rewrite Hseen. split.
  - intros (x' & Hin & Hk). exists x'. split; [|done].
    apply elem_of_app. by left.
  - intros (x' & Hin & Hk). apply elem_of_app in Hin as [Hin|Hin]; [eauto|].
    apply list_elem_of_singleton in Hin as ->. apply Hseen. by apply Hx.
Qed.

Lemma inv_seen_new (processed : list pyval) (seen : gset (str * str)) x k0 :
  (∀ k, k ∈ seen ↔ ∃ x, x ∈ processed ∧ key_of x = Some k) →
  key_of x = Some k0 →
  ∀ k, k ∈ seen ∪ {[k0]} ↔ ∃ x', x' ∈ processed ++ [x] ∧ key_of x' = Some k.
Proof.
  intros Hseen Hx k. rewrite elem_of_union, Hseen, elem_of_singleton. split.
  - intros [(x' & Hin & Hk)| ->].
    + exists x'. split; [|done]. apply elem_of_app. by left.
    + exists x. split; [|done]. apply elem_of_app. right. by left.
  - intros (x' & Hin & Hk). apply elem_of_app in Hin as [Hin|Hin]; [eauto|].
    apply list_elem_of_singleton in Hin as ->. right. congruence.
Qed.

Lemma link_step_inv processed st x st' :
  loop_inv fs root src_map processed st →
  link_step fs root src_map st x = Ok st' →
  loop_inv fs root src_map (processed ++ [x]) st'.
Proof.
  intros [Hseen Hrows Hmisses Hrsub Hmsub Hnodup Hkeys Hfailed].
  rewrite link_step_spec.
  pose proof (Forall_impl _ _ _ Hrows
                (λ r, row_ok_app fs root src_map processed [x] r)) as Hrows'.
  pose proof (Forall_impl _ _ _ Hmisses
                (λ m, miss_ok_app fs root processed [x] m)) as Hmisses'.
  destruct (year_prefix x) as [[y p]|] eqn:Hyp.
  - assert (key_of x = Some (y, lower p)) as Hkx
        by (unfold key_of; by rewrite Hyp).
    case_bool_decide as Hin.
    { intros [= <-]. split; try done.
      - apply inv_seen_old; [done|]. intros k. rewrite Hkx. by intros [= <-].
      - by apply sublist_inserts_r.
      - by apply sublist_inserts_r.
      - intros x' [Hx'| ->%list_elem_of_singleton]%elem_of_app E;
          [by apply Hfailed|congruence]. }
    assert (∀ x', x' ∈ processed → key_of x' ≠ Some (y, lower p)) as Hfirst.
    { intros x' Hx' Hk. apply Hin, Hseen. eauto. }
    assert ((y, lower p) ∉ emitted_keys (rows st) (misses st)) as Hfresh
        by (by rewrite Hkeys).
    destruct (find_matching_files_in_year fs root y p)
      as [[|f matches]|e] eqn:Hfind; [| |done].
    + intros [= <-]. split; simpl.
      * by apply inv_seen_new.
      * done.
      * apply Forall_app. split; [done|]. constructor; [|done].
        right. exists y, p. simpl. split; [done|].
        split; [by apply first_with_key_last|done].
      * by apply sublist_inserts_r.
      * rewrite fmap_app. by apply sublist_app.
      * rewrite (emitted_keys_miss_some _ _ _ (y, lower p)) by done.
        by constructor.
      * intros k.
        rewrite (emitted_keys_miss_some _ _ _ (y, lower p)) by done.
        rewrite elem_of_cons, Hkeys, elem_of_union, elem_of_singleton. tauto.
      * intros x' [Hx'| ->%list_elem_of_singleton]%elem_of_app E;
          [|congruence].
        rewrite fmap_app. apply elem_of_app. left. by apply Hfailed.
    + intros [= <-]. split; simpl.
      * by apply inv_seen_new.
      * apply Forall_app. split; [done|]. constructor; [|done].
        exists y, p, (f :: matches). simpl. split; [done|].
        split; [by apply first_with_key_last|done].
      * done.
      * rewrite fmap_app. by apply sublist_app.
      * by apply sublist_inserts_r.
      * rewrite emitted_keys_row. by constructor.
      * intros k. rewrite emitted_keys_row, elem_of_cons, Hkeys.
        unfold row_key. simpl. rewrite elem_of_union, elem_of_singleton. tauto.
      * intros x' [Hx'| ->%list_elem_of_singleton]%elem_of_app E;
          [by apply Hfailed|congruence].
  - assert (key_of x = None) as Hkx by (unfold key_of; by rewrite Hyp).
    intros [= <-]. split; simpl.
    + apply inv_seen_old; [done|]. intros k. by rewrite Hkx.
    + done.
    + apply Forall_app. split; [done|]. constructor; [|done].
      left. simpl. split; [done|]. split; [|done].
      apply elem_of_app. right. by left.
    + by apply sublist_inserts_r.
    + rewrite fmap_app. by apply sublist_app.
    + by rewrite emitted_keys_miss_none.
    + intros k. by rewrite emitted_keys_miss_none.
    + intros x' Hx' E. rewrite fmap_app. apply elem_of_app.
      apply elem_of_app in Hx' as [Hx'| ->%list_elem_of_singleton].
      * left. by apply Hfailed.
      * right. by left.
Qed.

Lemma link_loop_inv processed st l st' :
  loop_inv fs root src_map processed st →
  foldM (link_step fs root src_map) st l = Ok st' →
  loop_inv fs root src_map (processed ++ l) st'.
Proof.
  revert processed st. induction l as [|x l IH]; intros processed st Hinv.
  - simpl. intros [= <-]. by rewrite (right_id_L [] (++)).
  - simpl. destruct (link_step fs root src_map st x) as [st1|e] eqn:E; [|done].
    simpl. intros H. apply (link_step_inv _ _ _ _ Hinv) in E.
    apply (IH _ _ E) in H. by rewrite <- (assoc_L (++)) in H.
Qed.

End link_step.

(** ** The first loop: the source files of a key *)

Lemma src_loop_spec meta m0 :
  ∃ m, foldM src_step m0 meta = Ok m
    ∧ ∀ k f, f ∈ default ∅ (m !! k) ↔
        f ∈ default ∅ (m0 !! k)
        ∨ ∃ r, r ∈ meta ∧ key_of (m_obj_id_raw r) = Some k
            ∧ m_source_file r = f.
Proof.
  revert m0. induction meta as [|r meta IH]; intros m0; simpl.
  - exists m0. split; [done|]. intros k f. split; [by left|].
    intros [H|(r & Hr & _)]; [done|]. by apply elem_of_nil in Hr.
  - rewrite src_step_spec. simpl.
    destruct (IH (match key_of (m_obj_id_raw r) with
                  | Some k => <[k := default ∅ (m0 !! k) ∪ {[m_source_file r]}]> m0
                  | None => m0
                  end)) as (m & Hm & Hspec).
    exists m. split; [done|]. intros k f. rewrite Hspec. clear Hspec Hm IH.
    destruct (key_of (m_obj_id_raw r)) as [k0|] eqn:Hk0.
    + destruct (decide (k0 = k)) as [->|Hne].
      * rewrite lookup_insert_eq. simpl. rewrite elem_of_union, elem_of_singleton.
        split.
        -- intros [[H| ->]|(r' & Hr' & Hk & Hf)]; [by left| |].
           ++ right. exists r. split; [by left|done].
           ++ right. exists r'. split; [by right|done].
        -- intros [H|(r' & Hr' & Hk & Hf)]; [by left; left|].
           apply elem_of_cons in Hr' as [->|Hr']; [by left; right|].
           right. by exists r'.
      * rewrite lookup_insert_ne by done. split.
        -- intros [H|(r' & Hr' & Hk & Hf)]; [by left|].
           right. exists r'. split; [by right|done].
        -- intros [H|(r' & Hr' & Hk & Hf)]; [by left|].
           apply elem_of_cons in Hr' as [->|Hr']; [congruence|].
           right. by exists r'.
    + split.
      * intros [H|(r' & Hr' & Hk & Hf)]; [by left|].
        right. exists r'. split; [by right|done].
      * intros [H|(r' & Hr' & Hk & Hf)]; [by left|].
        apply elem_of_cons in Hr' as [->|Hr']; [congruence|].
        right. by exists r'.
Qed.

(** ** [drop_duplicates] *)

Lemma drop_duplicates_from_elem seen l x :
  x ∈ drop_duplicates_from seen l ↔ x ∈ l ∧ x ∉ seen.
Proof.
  revert seen. induction l as [|y l IH]; intros seen; simpl.
  - split; [by intros ?%elem_of_nil|]. by intros [?%elem_of_nil _].
  - case_decide as Hy.
    + rewrite IH, elem_of_cons. split; [intros [H Hn]; by split; [right|]|].
      intros [[->|H] Hn]; done.
    + rewrite !elem_of_cons, IH, elem_of_cons. split.
      * intros [->|(H & Hn)]; [by split; [left|]|].
        split; [by right|]. tauto.
      * intros [[->|H] Hn]; [by left|].
        destruct (decide (x = y)) as [->|Hne]; [by left|]. right.
        split; [done|]. intros [?|?]; done.
Qed.

Lemma drop_duplicates_from_NoDup seen l : NoDup (drop_duplicates_from seen l).
Proof.
  revert seen. induction l as [|y l IH]; intros seen; simpl; [constructor|].
  case_decide as Hd; [done|]. constructor; [|done].
  rewrite drop_duplicates_from_elem. intros [_ H]. apply H. by left.
Qed.

(** Before a value that is kept, the list has only values that are kept
    before it, or that were seen from the start. *)
Lemma drop_duplicates_from_split seen l d1 x d2 :
  drop_duplicates_from seen l = d1 ++ x :: d2 →
  ∃ l1 l2, l = l1 ++ x :: l2 ∧ ∀ y, y ∈ l1 → y ∈ d1 ∨ y ∈ seen.
Proof.
  revert seen d1. induction l as [|y l IH]; intros seen d1; simpl.
  - by destruct d1.
  - case_decide as Hy.
    + intros H. apply IH in H as (l1 & l2 & -> & Hl1).
      exists (y :: l1), l2. split; [done|].
      intros z [->|Hz]%elem_of_cons; [by right|by apply Hl1].
    + destruct d1 as [|d d1]; simpl.
      * intros [= -> _]. exists [], l. split; [done|].
        by intros z ?%elem_of_nil.
      * intros [= -> H]. apply IH in H as (l1 & l2 & -> & Hl1).
        exists (d :: l1), l2. split; [done|].
        intros z [->|Hz]%elem_of_cons; [by left; left|].
        destruct (Hl1 z Hz) as [?|[->|?]%elem_of_cons].
        -- left. by right.
        -- left. by left.
        -- by right.
Qed.

Lemma series_of_NoDup meta : NoDup (series_of meta).
Proof. apply drop_duplicates_from_NoDup. Qed.

Lemma series_of_elem meta x :
  x ∈ series_of meta ↔
  ∃ r, r ∈ meta ∧ m_obj_id_raw r ≠ PNaN ∧ x = strip_cell (m_obj_id_raw r).
Proof.
  unfold series_of, drop_duplicates, dropna.
  rewrite drop_duplicates_from_elem, list_elem_of_fmap. split.
  - intros [(v & -> & Hv) _]. apply list_elem_of_filter in Hv as [Hv Hin].
    apply list_elem_of_fmap in Hin as (r & -> & Hr). by exists r.
  - intros (r & Hr & Hv & ->). split; [|by intros ?%elem_of_nil].
    exists (m_obj_id_raw r). split; [done|].
    apply list_elem_of_filter. split; [done|].
    apply list_elem_of_fmap. by exists r.
Qed.

(** A value of [series] comes from a row of [meta] before which every row
    is missing or gives a value that is earlier in [series]. *)
Lemma series_of_split meta d1 x d2 :
  series_of meta = d1 ++ x :: d2 →
  ∃ m1 r m2, meta = m1 ++ r :: m2 ∧ m_obj_id_raw r ≠ PNaN
    ∧ x = strip_cell (m_obj_id_raw r)
    ∧ ∀ r', r' ∈ m1 → m_obj_id_raw r' = PNaN
                      ∨ strip_cell (m_obj_id_raw r') ∈ d1.
Proof.
  unfold series_of, drop_duplicates. intros H.
  apply drop_duplicates_from_split in H as (l1 & l2 & Hl & Hl1).
  assert (∀ meta l1, strip_cell <$> dropna (m_obj_id_raw <$> meta)
                     = l1 ++ x :: l2 →
          ∃ m1 r m2, meta = m1 ++ r :: m2 ∧ m_obj_id_raw r ≠ PNaN
            ∧ x = strip_cell (m_obj_id_raw r)
            ∧ l1 = strip_cell <$> dropna (m_obj_id_raw <$> m1)) as Haux.
  { clear. intros meta. induction meta as [|r meta IH]; intros l1; simpl.
    - by destruct l1.
    - unfold dropna in *. rewrite filter_cons. case_decide as Hr; simpl.
      + destruct l1 as [|v l1]; simpl.
        * intros [= <- _]. exists [], r, meta. by repeat split.
        * intros [= <- H]. apply IH in H as (m1 & r' & m2 & -> & ? & ? & ->).
          exists (r :: m1), r', m2. repeat split; try done.
          simpl. rewrite filter_cons. by rewrite decide_True by done.
      + intros H. apply IH in H as (m1 & r' & m2 & -> & ? & ? & ->).
        exists (r :: m1), r', m2. repeat split; try done.
        simpl. rewrite filter_cons. by rewrite decide_False by (by intros ?). }
  apply Haux in Hl as (m1 & r & m2 & -> & Hr & -> & ->).
  exists m1, r, m2. repeat split; try done.
  intros r' Hr'. destruct (decide (m_obj_id_raw r' = PNaN)) as [|Hne]; [by left|].
  right. destruct (Hl1 (strip_cell (m_obj_id_raw r'))) as [?|?%elem_of_nil]; try done.
  apply list_elem_of_fmap. exists (m_obj_id_raw r'). split; [done|].
  apply list_elem_of_filter. split; [done|].
  apply list_elem_of_fmap. by exists r'.
Qed.

(** ** The whole of [build_links_like_group] *)

Lemma build_links_like_group_unfold fs meta root :
  build_links_like_group fs meta root
  = (src_map ← foldM src_step ∅ meta;
     st ← foldM (link_step fs root src_map) (State [] [] ∅) (series_of meta);
     mret (rows st, misses st)).
Proof. by destruct meta. Qed.

Lemma build_links_like_group_inv fs meta root rs ms :
  build_links_like_group fs meta root = Ok (rs, ms) →
  ∃ src_map seen,
    (∀ k f, f ∈ default ∅ (src_map !! k) ↔
       ∃ r, r ∈ meta ∧ key_of (m_obj_id_raw r) = Some k ∧ m_source_file r = f)
    ∧ loop_inv fs root src_map (series_of meta) (State rs ms seen).
Proof.
  rewrite build_links_like_group_unfold.
  destruct (src_loop_spec meta ∅) as (src_map & -> & Hsrc). simpl.
  destruct (foldM _ _ _) as [[rs' ms' seen]|e] eqn:E; [|done].
  simpl. intros [= <- <-]. exists src_map, seen. split.
  - intros k f. rewrite Hsrc, lookup_empty. simpl.
    split; [by intros [?%not_elem_of_empty|]|by right].
  - by apply (link_loop_inv fs root src_map [] _ _ _
                (loop_inv_init fs root src_map)) in E.
Qed.

Lemma key_of_nan : key_of PNaN = None.
Proof. done. Qed.

Lemma key_of_year_prefix_none v : key_of v = None ↔ year_prefix v = None.
Proof. unfold key_of. by destruct (year_prefix v). Qed.

Lemma source_files_spec (meta : list meta_row) (src_map : gmap (str * str) (gset str)) k :
  (∀ k f, f ∈ default ∅ (src_map !! k) ↔
     ∃ r, r ∈ meta ∧ key_of (m_obj_id_raw r) = Some k ∧ m_source_file r = f) →
  let files := sorted (elements (default ∅ (src_map !! k))) in
  Sorted str_le files ∧ NoDup files
  ∧ ∀ f, f ∈ files ↔
      ∃ r, r ∈ meta ∧ key_of (m_obj_id_raw r) = Some k ∧ m_source_file r = f.
Proof.
  intros Hsrc files. split; [apply sorted_Sorted|]. split.
  - unfold files. rewrite sorted_Permutation. apply NoDup_elements.
  - intros f. unfold files. by rewrite sorted_Permutation, elem_of_elements, Hsrc.
Qed.


(** C7, as the code has it: every entry of [misses] is of one of two kinds.
    For an identifier that does not parse the reason is the fixed German
    text "Keine Objektnummer im Format 'g1/yyyy/g3 g4' gefunden" and the
    entry has neither year nor prefix.  For an identifier that parses but
    for whose year and prefix no file is found, the reason is
    "Keine Dateien in <year>/ mit Präfix '<prefix>'" and the entry carries the
    year and the prefix. *)
Theorem build_links_like_group_miss_reason fs meta root rs ms m :
  build_links_like_group fs meta root = Ok (rs, ms) → m ∈ ms →
  (parse_object_number (miss_obj_id_raw m) = Ok None
   ∧ m = Miss (miss_obj_id_raw m) None None
           "Keine Objektnummer im Format 'g1/yyyy/g3 g4' gefunden")
  ∨ ∃ y p,
      year_prefix (miss_obj_id_raw m) = Some (y, p)
      ∧ find_matching_files_in_year fs root y p = Ok []
      ∧ m = Miss (miss_obj_id_raw m) (Some y) (Some p)
              ("Keine Dateien in " ++ y ++ "/ mit Pr" ++ ["228"%char]
               ++ "fix '" ++ p ++ "'").
Proof.
  intros H Hm.
  apply build_links_like_group_inv in H as (src_map & seen & _ & Hinv).
  pose proof (inv_misses _ _ _ _ _ Hinv) as Hmisses. simpl in Hmisses.
  rewrite Forall_forall in Hmisses.
  destruct (Hmisses m Hm) as [(H1 & _ & H3)|(y & p & H1 & _ & H3 & H4)].
  - left. split; [|done].
    destruct (year_prefix_cases (miss_obj_id_raw m))
      as [[E _]|(s & y & p & _ & _ & E)]; [done|congruence].
  - right. by exists y, p.
Qed.

(** ** Order of the output *)

Lemma first_with_key_meta meta raw k :
  first_with_key (series_of meta) raw k →
  ∃ m1 r0 m2, meta = m1 ++ r0 :: m2
    ∧ raw = strip_cell (m_obj_id_raw r0)
    ∧ key_of (m_obj_id_raw r0) = Some k
    ∧ ∀ r', r' ∈ m1 → key_of (m_obj_id_raw r') ≠ Some k.
Proof.
  intros (l1 & l2 & Hs & Hk & Hfirst).
  apply series_of_split in Hs as (m1 & r0 & m2 & -> & Hne & -> & Hm1).
  exists m1, r0, m2. split; [done|]. split; [done|].
  split; [by rewrite <- key_of_strip_cell|].
  intros r' Hr'. destruct (Hm1 r' Hr') as [E|Hin].
  - by rewrite E.
  - rewrite <- key_of_strip_cell. by apply Hfirst.
Qed.

(** C8: the identifiers of the linked groups, and those of the misses, come
    in the order of the deduplicated, trimmed input (they are sublists of
    it, and it has no duplicates); the identifier of a linked group, and of
    a miss that has a key, is the first value of that input with its key;
    and it is the trimmed identifier of the first row of the original input
    whose identifier has that key. *)
Theorem build_links_like_group_order fs meta root rs ms :
  build_links_like_group fs meta root = Ok (rs, ms) →
  NoDup (series_of meta)
  ∧ (row_obj_id_raw <$> rs) `sublist_of` series_of meta
  ∧ (miss_obj_id_raw <$> ms) `sublist_of` series_of meta
  ∧ (∀ r, r ∈ rs →
       first_with_key (series_of meta) (row_obj_id_raw r) (row_key r)
       ∧ ∃ m1 r0 m2, meta = m1 ++ r0 :: m2
           ∧ row_obj_id_raw r = strip_cell (m_obj_id_raw r0)
           ∧ key_of (m_obj_id_raw r0) = Some (row_key r)
           ∧ ∀ r', r' ∈ m1 → key_of (m_obj_id_raw r') ≠ Some (row_key r))
  ∧ ∀ m k, m ∈ ms → miss_key m = Some k →
       first_with_key (series_of meta) (miss_obj_id_raw m) k
       ∧ ∃ m1 r0 m2, meta = m1 ++ r0 :: m2
           ∧ miss_obj_id_raw m = strip_cell (m_obj_id_raw r0)
           ∧ key_of (m_obj_id_raw r0) = Some k
           ∧ ∀ r', r' ∈ m1 → key_of (m_obj_id_raw r') ≠ Some k.
Proof.
  intros H.
  apply build_links_like_group_inv in H as (src_map & seen & _ & Hinv).
  destruct Hinv as [_ Hrows Hmisses Hrsub Hmsub _ _ _]. simpl in *.
  rewrite Forall_forall in Hrows. rewrite Forall_forall in Hmisses.
  split; [apply series_of_NoDup|]. split; [done|]. split; [done|]. split.
  - intros r Hr.
    destruct (Hrows r Hr) as (y & p & matches & _ & Hfirst & _ & _ & Heq).
    assert (row_key r = (y, lower p)) as -> by by rewrite Heq.
    split; [done|]. by apply first_with_key_meta.
  - intros m k Hm Hk.
    destruct (Hmisses m Hm) as [(_ & _ & Heq)|(y & p & _ & Hfirst & _ & Heq)].
    + rewrite Heq in Hk. done.
    + assert (k = (y, lower p)) as -> by (rewrite Heq in Hk; by injection Hk).
      split; [done|]. by apply first_with_key_meta.
Qed.

(** ** Base names of the matched files, in order *)

Lemma find_matching_files_in_year_basenames fs root y p matches :
  names_plain fs →
  find_matching_files_in_year fs root y p = Ok matches →
  Sorted str_le (basename <$> matches).
Proof.
  intros Hplain. unfold find_matching_files_in_year, os_listdir.
  destruct (isdir fs (path_join root y)); simpl; [|intros [= <-]; constructor].
  destruct (listdir fs (path_join root y)) as [names|] eqn:Hnames; [|done].
  simpl. rewrite scan_names_spec. simpl. intros [= <-].
  destruct (path_join_plain (path_join root y)) as (d' & Hd' & Hjoin).
  apply (Sorted_basename d'); [done| |apply sorted_Sorted].
  rewrite sorted_Permutation. apply Forall_fmap, Forall_forall.
  intros n [_ Hn]%list_elem_of_filter. simpl.
  pose proof (Hplain _ _ Hnames) as Hall. rewrite Forall_forall in Hall.
  exists n. split; [by apply Hall|]. by apply Hjoin, Hall.
Qed.

(** C9: for every linked group the list of images is not empty, it is the
    list of base names of the files [find_matching_files_in_year] returns
    for its year and prefix, which is not empty either, and the image count
    is its length; the base names are in lexicographic order (directory
    listings give plain names). *)
Theorem build_links_like_group_images fs meta root rs ms r :
  build_links_like_group fs meta root = Ok (rs, ms) → r ∈ rs →
  ∃ matches,
    find_matching_files_in_year fs root (row_year r) (row_base_prefix r)
    = Ok matches
    ∧ matches ≠ []
    ∧ row_images r = basename <$> matches
    ∧ row_images r ≠ []
    ∧ row_image_count r = length (row_images r)
    ∧ (names_plain fs → Sorted str_le (row_images r)).
Proof.
  intros H Hr.
  apply build_links_like_group_inv in H as (src_map & seen & _ & Hinv).
  pose proof (inv_rows _ _ _ _ _ Hinv) as Hrows. simpl in Hrows.
  rewrite Forall_forall in Hrows.
  destruct (Hrows r Hr) as (y & p & matches & _ & _ & Hfind & Hne & Heq).
  exists matches. rewrite Heq. simpl.
  split; [done|]. split; [done|]. split; [done|]. split.
  { by destruct matches. }
  split; [by rewrite length_fmap|].
  intros Hplain. by apply (find_matching_files_in_year_basenames fs root y p).
Qed.

(** ** Rows without an identifier *)

Lemma src_loop_dropna meta m0 :
  foldM src_step m0 (filter (λ r, m_obj_id_raw r ≠ PNaN) meta)
  = foldM src_step m0 meta.
Proof.
  revert m0. induction meta as [|r meta IH]; intros m0; [done|].
  rewrite filter_cons. case_decide as Hr; simpl.
  - rewrite src_step_spec. simpl. apply IH.
  - rewrite src_step_spec. simpl.
    assert (m_obj_id_raw r = PNaN) as -> by (by destruct (m_obj_id_raw r)).
    rewrite key_of_nan. apply IH.
Qed.

Lemma series_of_dropna meta :
  series_of (filter (λ r, m_obj_id_raw r ≠ PNaN) meta) = series_of meta.
Proof.
  unfold series_of. do 2 f_equal. unfold dropna.
  induction meta as [|r meta IH]; [done|].
  destruct (decide (m_obj_id_raw r = PNaN)) as [E|E].
  - rewrite (filter_cons_False _ r) by (by intros ?).
    etrans; [exact IH|]. simpl.
    by rewrite filter_cons_False by (by intros ?).
  - rewrite (filter_cons_True _ r) by done. simpl.
    rewrite !filter_cons_True by done. f_equal. exact IH.
Qed.

(** C10, as the code has it: a row whose identifier is missing contributes
    nothing, the result is the one obtained without such rows, and no
    linked group and no miss has a missing identifier.  The misses without
    a year are the present identifiers, trimmed, that do not parse, be they
    strings or not: each comes from such a row, and each such row has one. *)
Theorem build_links_like_group_dropna fs meta root :
  build_links_like_group fs meta root
  = build_links_like_group fs (filter (λ r, m_obj_id_raw r ≠ PNaN) meta) root
  ∧ ∀ rs ms, build_links_like_group fs meta root = Ok (rs, ms) →
      (∀ r, r ∈ rs → row_obj_id_raw r ≠ PNaN)
      ∧ (∀ m, m ∈ ms → miss_obj_id_raw m ≠ PNaN)
      ∧ (∀ m, m ∈ ms → miss_year m = None →
           ∃ r0, r0 ∈ meta ∧ m_obj_id_raw r0 ≠ PNaN
             ∧ miss_obj_id_raw m = strip_cell (m_obj_id_raw r0)
             ∧ parse_object_number (m_obj_id_raw r0) = Ok None)
      ∧ ∀ r0, r0 ∈ meta → m_obj_id_raw r0 ≠ PNaN →
          parse_object_number (m_obj_id_raw r0) = Ok None →
          ∃ m, m ∈ ms ∧ miss_obj_id_raw m = strip_cell (m_obj_id_raw r0)
            ∧ miss_year m = None.
Proof.
  split.
  { rewrite !build_links_like_group_unfold.
    by rewrite src_loop_dropna, series_of_dropna. }
  intros rs ms H.
  apply build_links_like_group_inv in H as (src_map & seen & _ & Hinv).
  destruct Hinv as [_ Hrows Hmisses Hrsub Hmsub _ _ Hfailed]. simpl in *.
  rewrite Forall_forall in Hrows. rewrite Forall_forall in Hmisses.
  assert (∀ x, x ∈ series_of meta → x ≠ PNaN) as Hpresent.
  { intros x (r0 & _ & Hne & ->)%series_of_elem.
    by destruct (m_obj_id_raw r0). }
  split.
  { intros r Hr. apply Hpresent.
    apply (elem_of_sublist (row_obj_id_raw <$> rs)); [|done].
    apply list_elem_of_fmap. by exists r. }
  split.
  { intros m Hm. apply Hpresent.
    apply (elem_of_sublist (miss_obj_id_raw <$> ms)); [|done].
    apply list_elem_of_fmap. by exists m. }
  split.
  - intros m Hm Hy.
    destruct (Hmisses m Hm) as [(H1 & H2 & _)|(y & p & _ & _ & _ & Heq)].
    + apply series_of_elem in H2 as (r0 & Hr0 & Hne & Heq).
      exists r0. split; [done|]. split; [done|]. split; [done|].
      rewrite Heq, year_prefix_strip_cell in H1.
      destruct (year_prefix_cases (m_obj_id_raw r0))
        as [[E _]|(s & y & p & _ & _ & E)]; [done|congruence].
    + rewrite Heq in Hy. done.
  - intros r0 Hr0 Hne Hparse.
    assert (year_prefix (strip_cell (m_obj_id_raw r0)) = None) as Hyp.
    { rewrite year_prefix_strip_cell. unfold year_prefix. by rewrite Hparse. }
    destruct (proj1 (list_elem_of_fmap _ _ _)
                (Hfailed (strip_cell (m_obj_id_raw r0))
                   (proj2 (series_of_elem _ _)
                      (ex_intro _ r0 (conj Hr0 (conj Hne eq_refl)))) Hyp))
      as (m & Heq & Hm).
    exists m. split; [done|]. split; [done|].
    destruct (Hmisses m Hm) as [(_ & _ & ->)|(y & p & E & _)]; [done|].
    congruence.
Qed.

(** ** The sample inputs *)

Lemma demo_fs_names_plain : names_plain demo_fs.
Proof.
  intros d names. unfold demo_fs, listdir.
  repeat case_bool_decide; intros [= <-];
    repeat constructor; by apply (bool_decide_unpack _).
Qed.

Lemma demo_build :
  build_links_like_group demo_fs demo_meta "root" = Ok (demo_rows, demo_misses).
Proof. by vm_compute. Qed.

Example demo_find :
  find_matching_files_in_year demo_fs "root" "1997" "1-1997-1063-"
  = Ok [ "root/1997/1-1997-1063-000.JPG" : str;
         "root/1997/1-1997-1063-001.jpg" : str ].
Proof. by vm_compute. Qed.

Example demo_rows_images :
  row_images <$> demo_rows
  = [[ "1-1997-1063-000.JPG" : str; "1-1997-1063-001.jpg" : str ]].
Proof. by vm_compute. Qed.

Example demo_rows_sources :
  row_source_files <$> demo_rows = [ "a.xls, b.xls, c.xls" : str ].
Proof. by vm_compute. Qed.

Example demo_misses_ids :
  miss_obj_id_raw <$> demo_misses
  = [ PStr "no number here"; PNum 5; PStr "3/2001/050 0" ].
Proof. by vm_compute. Qed.

Example splitext_examples :
  (splitext "a.JPG").2 = (".JPG" : str) ∧ (splitext ".jpg").2 = []
  ∧ (splitext "a.b.png").2 = (".png" : str) ∧ (splitext "noext").2 = [].
Proof. by vm_compute. Qed.

Example path_join_examples :
  path_join "root" "1997" = ("root/1997" : str)
  ∧ path_join "root/" "1997" = ("root/1997" : str)
  ∧ path_join [] "1997" = ("1997" : str)
  ∧ path_join "root" "/abs" = ("/abs" : str).
Proof. by vm_compute. Qed.

Lemma demo_ident_well_shaped : well_shaped demo_ident.
Proof. repeat split; try done; try (repeat constructor); simpl; lia. Qed.

(** ** Instances of the theorems *)

Lemma parse_object_number_key_witness :
  well_shaped demo_ident
  ∧ ("Inv. 12 / 1997 /  063   5 (b)" : str)
    = "Inv. " ++ text_of demo_ident ++ " (b)"
  ∧ Forall (λ c, is_digit c = false) ("Inv. " : str)
  ∧ parse_object_number (PStr "Inv. 12 / 1997 /  063   5 (b)")
    = Ok (Some (key_dict "1997" "12-1997-063-")).
Proof.
  assert (Forall (λ c, is_digit c = false) ("Inv. " : str)) as Hpre
      by (by repeat constructor).
  split; [exact demo_ident_well_shaped|]. split; [reflexivity|].
  split; [exact Hpre|].
  exact (proj1 (proj2 (proj2 (parse_object_number_key
                                "Inv. 12 / 1997 /  063   5 (b)" "Inv. "
                                demo_ident " (b)" demo_ident_well_shaped
                                eq_refl)) Hpre)).
Defined.

Lemma parse_object_number_none_witness :
  ((∀ s, PNum 5 ≠ PStr s) ∨ PNum 5 = PStr []
   ∨ ∃ s, PNum 5 = PStr s ∧ ¬ contains_pattern s)
  ∧ parse_object_number (PNum 5) = Ok None.
Proof.
  assert ((∀ s, PNum 5 ≠ PStr s) ∨ PNum 5 = PStr []
          ∨ ∃ s, PNum 5 = PStr s ∧ ¬ contains_pattern s) as H.
  { left. intros s. discriminate. }
  split; [exact H|]. exact (parse_object_number_none _ H).
Defined.

(** C6 as it is stated fails: for "1/1997/1063 7" the result has no field for
    the group, the sequence or the series; its only fields are the year and
    the prefix. *)
Lemma parse_object_number_fields_counterexample :
  ∃ d, parse_object_number (PStr "1/1997/1063 7") = Ok (Some d)
    ∧ d !! "group" = None ∧ d !! "sequence" = None ∧ d !! "series" = None
    ∧ size d = 2.
Proof. eexists. split; [by vm_compute|]. by vm_compute. Qed.

Lemma parse_object_number_fields_witness :
  parse_object_number (PStr "1/1997/1063 7")
  = Ok (Some (key_dict "1997" "1-1997-1063-"))
  ∧ ∃ s pre i post, PStr "1/1997/1063 7" = PStr s
      ∧ first_occurrence s pre i post
      ∧ key_dict "1997" "1-1997-1063-" !! "year" = Some (id_year i)
      ∧ key_dict "1997" "1-1997-1063-" !! "base_prefix" = Some (prefix_of i)
      ∧ dom (key_dict "1997" "1-1997-1063-") = {[ "year"; "base_prefix" ]}.
Proof.
  assert (parse_object_number (PStr "1/1997/1063 7")
          = Ok (Some (key_dict "1997" "1-1997-1063-"))) as H
      by (by vm_compute).
  split; [exact H|]. exact (parse_object_number_fields _ _ H).
Defined.

Lemma find_matching_files_in_year_spec_witness :
  children demo_fs (path_join "root" "1997")
  = Some [ "1-1997-1063-001.jpg" : str; "sub" : str;
           "1-1997-1063-000.JPG" : str; "2-1997-9999-000.jpg" : str;
           "1-1997-1063-002.txt" : str ]
  ∧ ∃ out, find_matching_files_in_year demo_fs "root" "1997" "1-1997-1063-"
           = Ok out ∧ Sorted str_le out.
Proof.
  assert (children demo_fs (path_join "root" "1997")
          = Some [ "1-1997-1063-001.jpg" : str; "sub" : str;
                   "1-1997-1063-000.JPG" : str; "2-1997-9999-000.jpg" : str;
                   "1-1997-1063-002.txt" : str ]) as H by (by vm_compute).
  split; [exact H|].
  destruct (find_matching_files_in_year_spec demo_fs "root" "1997"
              "1-1997-1063-" _ H) as (out & H1 & H2 & _).
  exists out. by split.
Defined.

Lemma find_matching_files_in_year_no_dir_witness :
  isdir demo_fs (path_join "root" "2001") = false
  ∧ find_matching_files_in_year demo_fs "root" "2001" "3-2001-050-" = Ok [].
Proof.
  assert (isdir demo_fs (path_join "root" "2001") = false) as H
      by (by vm_compute).
  split; [exact H|]. exact (find_matching_files_in_year_no_dir _ _ _ _ H).
Defined.


(** C7 as it is stated fails: the reasons are not the English texts. *)
Lemma build_links_like_group_miss_reason_counterexample :
  ∃ m1 m2,
    build_links_like_group empty_fs
      [ MetaRow (PStr "no number here") "a.xls";
        MetaRow (PStr "3/2001/050 0") "a.xls" ] "root"
    = Ok ([], [m1; m2])
    ∧ miss_reason m1 ≠ "no identifier pattern found"
    ∧ miss_reason m2 ≠ "no files in 2001/ with prefix '3-2001-050-'".
Proof. do 2 eexists. split; [by vm_compute|]. split; by vm_compute. Qed.

Lemma build_links_like_group_miss_reason_witness :
  build_links_like_group demo_fs demo_meta "root" = Ok (demo_rows, demo_misses)
  ∧ demo_miss ∈ demo_misses
  ∧ ((parse_object_number (miss_obj_id_raw demo_miss) = Ok None
      ∧ demo_miss = Miss (miss_obj_id_raw demo_miss) None None
                      "Keine Objektnummer im Format 'g1/yyyy/g3 g4' gefunden")
     ∨ ∃ y p,
         year_prefix (miss_obj_id_raw demo_miss) = Some (y, p)
         ∧ find_matching_files_in_year demo_fs "root" y p = Ok []
         ∧ demo_miss = Miss (miss_obj_id_raw demo_miss) (Some y) (Some p)
                         ("Keine Dateien in " ++ y ++ "/ mit Pr" ++ ["228"%char]
                          ++ "fix '" ++ p ++ "'")).
Proof.
  assert (demo_miss ∈ demo_misses) as H by (by left).
  split; [exact demo_build|]. split; [exact H|].
  exact (build_links_like_group_miss_reason _ _ _ _ _ _ demo_build H).
Defined.

Lemma build_links_like_group_order_witness :
  build_links_like_group demo_fs demo_meta "root" = Ok (demo_rows, demo_misses)
  ∧ (row_obj_id_raw <$> demo_rows) `sublist_of` series_of demo_meta
  ∧ (miss_obj_id_raw <$> demo_misses) `sublist_of` series_of demo_meta.
Proof.
  split; [exact demo_build|].
  pose proof (build_links_like_group_order _ _ _ _ _ demo_build)
    as (_ & H1 & H2 & _).
  by split.
Defined.

Lemma build_links_like_group_images_witness :
  build_links_like_group demo_fs demo_meta "root" = Ok (demo_rows, demo_misses)
  ∧ demo_row ∈ demo_rows
  ∧ names_plain demo_fs
  ∧ row_images demo_row ≠ []
  ∧ row_image_count demo_row = length (row_images demo_row)
  ∧ Sorted str_le (row_images demo_row).
Proof.
  assert (demo_row ∈ demo_rows) as H by (by left).
  split; [exact demo_build|]. split; [exact H|].
  split; [exact demo_fs_names_plain|].
  destruct (build_links_like_group_images _ _ _ _ _ _ demo_build H)
    as (matches & _ & _ & _ & H1 & H2 & H3).
  split; [exact H1|]. split; [exact H2|]. exact (H3 demo_fs_names_plain).
Defined.

(** C10 as it is stated fails in its last part: a number in the identifier
    column is not a string, and it is recorded as a miss. *)
Lemma build_links_like_group_dropna_counterexample :
  ∃ m, build_links_like_group empty_fs [MetaRow (PNum 5) "a.xls"] "root"
       = Ok ([], [m])
    ∧ miss_obj_id_raw m = PNum 5
    ∧ ∀ s, miss_obj_id_raw m ≠ PStr s.
Proof. eexists. split; [by vm_compute|]. split; [done|]. intros s. discriminate. Qed.

Lemma build_links_like_group_dropna_witness :
  build_links_like_group demo_fs demo_meta "root"
  = build_links_like_group demo_fs
      (filter (λ r, m_obj_id_raw r ≠ PNaN) demo_meta) "root"
  ∧ ∀ m, m ∈ demo_misses → miss_obj_id_raw m ≠ PNaN.
Proof.
  pose proof (build_links_like_group_dropna demo_fs demo_meta "root")
    as [H1 H2].
  split; [exact H1|].
  exact (proj1 (proj2 (H2 _ _ demo_build))).
Defined.

(** * Further properties of the code *)

(** ** The shape of what [parse_object_number] returns *)

Lemma lower_digit c : is_digit c = true → lower_char c = c.
Proof.
  unfold is_digit, lower_char. intros H.
  apply andb_prop in H as [H1 H2]. apply N.leb_le in H1, H2.
  destruct (65 <=? code c)%N eqn:E1; [apply N.leb_le in E1; lia|].
  destruct (192 <=? code c)%N eqn:E2; [apply N.leb_le in E2; lia|done].
Qed.

Lemma lower_prefix_chars p : Forall prefix_char p → lower p = p.
Proof.
  induction 1 as [|c p [Hc| ->] Hp IH]; simpl; [done| |].
  - by rewrite lower_digit, IH.
  - by rewrite IH.
Qed.

Lemma digits_prefix_chars s : digits s → Forall prefix_char s.
Proof. intros H. eapply Forall_impl; [exact H|]. intros c Hc. by left. Qed.

Lemma prefix_of_chars i : well_shaped i → Forall prefix_char (prefix_of i).
Proof.
  intros ([Hg _] & _ & [Hy _] & _ & [Hq _] & _).
  unfold prefix_of.
  repeat (apply Forall_app; split); try (by apply digits_prefix_chars);
    repeat constructor; by right.
Qed.

(** When [parse_object_number] returns a dictionary, the year in it is four
    decimal digits and the prefix is made of digits and dashes only, so that
    lower-casing the prefix, as the two loops of [build_links_like_group] do
    to form their key, changes nothing: the key of a cell is the pair of the
    two values of the dictionary. *)
Theorem parse_object_number_shape (v : pyval) (d : gmap string str) :
  parse_object_number v = Ok (Some d) →
  ∃ y p, d = key_dict y p
    ∧ digits y ∧ length y = 4
    ∧ Forall prefix_char p
    ∧ lower p = p
    ∧ key_of v = Some (y, p).
Proof.
  intros H. destruct (parse_cases v) as [E|(s & pre & i & post & -> & Hf & E)];
    [congruence|].
  rewrite E in H. injection H as <-.
  pose proof Hf as (Hi & _).
  pose proof (prefix_of_chars i Hi) as Hp.
  exists (id_year i), (prefix_of i). split; [done|].
  destruct Hi as (_ & _ & [Hy Hylen] & _).
  split; [done|]. split; [done|]. split; [done|].
  split; [by apply lower_prefix_chars|].
  unfold key_of, year_prefix. rewrite E. unfold key_dict.
  simplify_map_eq. simpl. by rewrite lower_prefix_chars.
Qed.

Lemma with_group_digit_well_shaped c i :
  is_digit c = true → well_shaped i → well_shaped (with_group_digit c i).
Proof.
  intros Hc ([Hg Hgne] & H2 & H3 & H4 & H5 & H6 & H7).
  split; [|done]. split; [by constructor|done].
Qed.

(** The group [parse_object_number] takes is never the tail of a longer
    number: no digit stands right before the first occurrence of the pattern,
    whose year and prefix are returned. *)
Theorem parse_object_number_group_whole (s : str) (d : gmap string str) :
  parse_object_number (PStr s) = Ok (Some d) →
  ∃ pre i post, first_occurrence s pre i post
    ∧ d = key_dict (id_year i) (prefix_of i)
    ∧ ∀ pre' c, pre = pre' ++ [c] → is_digit c = false.
Proof.
  intros H.
  destruct (parse_cases (PStr s)) as [E|(s' & pre & i & post & Hs & Hf & E)];
    [congruence|].
  injection Hs as <-. rewrite E in H. injection H as <-.
  exists pre, i, post. split; [done|]. split; [done|].
  intros pre' c ->. destruct (is_digit c) eqn:Hc; [|done]. exfalso.
  destruct Hf as (Hi & Hs & Hmin).
  specialize (Hmin pre' (with_group_digit c i) post
                (with_group_digit_well_shaped c i Hc Hi)).
  rewrite length_app in Hmin. simpl in Hmin.
  assert (length pre' + 1 ≤ length pre') as Hbad; [|lia].
  apply Hmin. rewrite Hs. by rewrite <- (assoc_L (++)).
Qed.

Lemma digits_dash_inj (a a' r r' : str) :
  digits a → digits a' →
  a ++ "-"%char :: r = a' ++ "-"%char :: r' → a = a' ∧ r = r'.
Proof.
  intros Ha. revert a'. induction Ha as [|c a Hc Ha IH]; intros a' Ha' Heq.
  - destruct Ha' as [|c' a' Hc' Ha']; simpl in Heq.
    + by injection Heq.
    + injection Heq as <- _. done.
  - destruct Ha' as [|c' a' Hc' Ha']; simpl in Heq.
    + injection Heq as -> _. done.
    + injection Heq as <- Heq. destruct (IH a' Ha' Heq) as [-> ->]. done.
Qed.

(** A prefix determines the group, the year and the sequence it was built
    from, also when further text follows it. *)
Lemma prefix_of_inj i i' (r r' : str) :
  well_shaped i → well_shaped i' →
  prefix_of i ++ r = prefix_of i' ++ r' →
  id_group i = id_group i' ∧ id_year i = id_year i'
  ∧ id_sequence i = id_sequence i' ∧ r = r'.
Proof.
  intros ([Hg _] & _ & [Hy _] & _ & [Hq _] & _)
         ([Hg' _] & _ & [Hy' _] & _ & [Hq' _] & _).
  unfold prefix_of. reassoc. intros Heq.
  apply digits_dash_inj in Heq as [Eg Heq]; [|done..].
  apply digits_dash_inj in Heq as [Ey Heq]; [|done..].
  apply digits_dash_inj in Heq as [Eq Heq]; [|done..].
  done.
Qed.

(** Two texts get the same key exactly when the first identifiers in them
    agree in group, year and sequence: the key never merges two different
    objects. *)
Theorem key_of_same_object (s pre : str) (i : ident) (post : str)
    (s' pre' : str) (i' : ident) (post' : str) :
  first_occurrence s pre i post → first_occurrence s' pre' i' post' →
  (key_of (PStr s) = key_of (PStr s')
   ↔ id_group i = id_group i' ∧ id_year i = id_year i'
     ∧ id_sequence i = id_sequence i').
Proof.
  intros Hf Hf'.
  pose proof Hf as (Hi & _). pose proof Hf' as (Hi' & _).
  unfold key_of, year_prefix.
  rewrite (first_occurrence_parse _ _ _ _ Hf),
    (first_occurrence_parse _ _ _ _ Hf').
  unfold key_dict. simplify_map_eq. simpl.
  rewrite !lower_prefix_chars by by apply prefix_of_chars.
  split.
  - intros [= Hy Hp].
    destruct (prefix_of_inj i i' [] [] Hi Hi') as (? & ? & ? & _); [|done].
    by rewrite !(right_id_L [] (++)).
  - intros (Hg & Hy & Hq). unfold prefix_of. by rewrite Hg, Hy, Hq.
Qed.

(** ** What [find_matching_files_in_year] depends on *)

Lemma find_matching_files_in_year_local fs fs' root y p :
  agree_on_dir fs fs' (path_join root y) →
  find_matching_files_in_year fs root y p
  = find_matching_files_in_year fs' root y p.
Proof.
  intros (Hdir & Hlist & Hfile).
  unfold find_matching_files_in_year, os_listdir. rewrite Hdir, Hlist.
  destruct (isdir fs' (path_join root y)); simpl; [|done].
  destruct (listdir fs' (path_join root y)) as [names|]; simpl; [|done].
  rewrite !scan_names_spec.
  rewrite (list_filter_iff (qualifies fs (path_join root y) p)
             (qualifies fs' (path_join root y) p)); [done|].
  intros n. unfold qualifies. by rewrite Hfile.
Qed.

Lemma sorted_Permutation_eq l l' : l ≡ₚ l' → sorted l = sorted l'.
Proof.
  intros H. apply (Sorted_unique str_le); [apply sorted_Sorted..|].
  by rewrite !sorted_Permutation.
Qed.

Lemma find_matching_files_in_year_order fs fs' root y p :
  same_up_to_listing_order fs fs' →
  find_matching_files_in_year fs root y p
  = find_matching_files_in_year fs' root y p.
Proof.
  intros (Hdir & Hfile & Hlist).
  unfold find_matching_files_in_year, os_listdir. rewrite Hdir.
  destruct (isdir fs' (path_join root y)); simpl; [|done].
  specialize (Hlist (path_join root y)).
  destruct (listdir fs (path_join root y)) as [names|],
    (listdir fs' (path_join root y)) as [names'|]; simpl; try done.
  rewrite !scan_names_spec. simpl. f_equal.
  apply sorted_Permutation_eq. apply fmap_Permutation.
  rewrite Hlist.
  rewrite (list_filter_iff (qualifies fs (path_join root y) p)
             (qualifies fs' (path_join root y) p)); [done|].
  intros n. unfold qualifies. by rewrite Hfile.
Qed.

(** ** What [build_links_like_group] depends on *)

Lemma link_loop_ext fs fs' root src_map st l :
  (∀ x y p, x ∈ l → year_prefix x = Some (y, p) →
     find_matching_files_in_year fs root y p
     = find_matching_files_in_year fs' root y p) →
  foldM (link_step fs root src_map) st l
  = foldM (link_step fs' root src_map) st l.
Proof.
  revert st. induction l as [|x l IH]; intros st Hfind; [done|].
  simpl.
  assert (link_step fs root src_map st x = link_step fs' root src_map st x)
    as ->.
  { rewrite !link_step_spec. destruct (year_prefix x) as [[y p]|] eqn:E; [|done].
    rewrite (Hfind x y p); [done|by left|done]. }
  destruct (link_step fs' root src_map st x) as [st1|e]; simpl; [|done].
  apply IH. intros x' y p Hx'. apply Hfind. by right.
Qed.

Lemma build_links_like_group_ext fs fs' meta root :
  (∀ r y p, r ∈ meta → year_prefix (m_obj_id_raw r) = Some (y, p) →
     find_matching_files_in_year fs root y p
     = find_matching_files_in_year fs' root y p) →
  build_links_like_group fs meta root = build_links_like_group fs' meta root.
Proof.
  intros Hfind. rewrite !build_links_like_group_unfold.
  destruct (foldM src_step ∅ meta) as [src_map|e]; simpl; [|done].
  rewrite (link_loop_ext fs fs'); [done|].
  intros x y p (r & Hr & _ & ->)%series_of_elem Hyp.
  rewrite year_prefix_strip_cell in Hyp. by apply (Hfind r).
Qed.

(** The order in which the operating system lists a directory has no effect:
    on two file systems that differ only in that order,
    [find_matching_files_in_year] returns the same list and
    [build_links_like_group] the same table and the same misses. *)
Theorem listing_order_irrelevant fs fs' :
  same_up_to_listing_order fs fs' →
  (∀ root y p, find_matching_files_in_year fs root y p
               = find_matching_files_in_year fs' root y p)
  ∧ ∀ meta root, build_links_like_group fs meta root
                 = build_links_like_group fs' meta root.
Proof.
  intros H. split.
  - intros root y p. by apply find_matching_files_in_year_order.
  - intros meta root. apply build_links_like_group_ext.
    intros r y p _ _. by apply find_matching_files_in_year_order.
Qed.

(** [build_links_like_group] looks only into the folders of the years it
    finds in the identifiers: two file systems that agree on these folders and
    on the entries in them give the same result, whatever else they hold. *)
Theorem build_links_like_group_local fs fs' meta root :
  (∀ r y p, r ∈ meta → year_prefix (m_obj_id_raw r) = Some (y, p) →
     agree_on_dir fs fs' (path_join root y)) →
  build_links_like_group fs meta root = build_links_like_group fs' meta root.
Proof.
  intros H. apply build_links_like_group_ext. intros r y p Hr Hyp.
  apply find_matching_files_in_year_local. by apply (H r y p).
Qed.

(** ** No file twice *)

Lemma find_matching_files_in_year_Ok fs root y p out :
  find_matching_files_in_year fs root y p = Ok out →
  out = []
  ∨ ∃ names, listdir fs (path_join root y) = Some names
      ∧ out = sorted (path_join (path_join root y)
                        <$> filter (qualifies fs (path_join root y) p) names).
Proof.
  unfold find_matching_files_in_year, os_listdir.
  destruct (isdir fs (path_join root y)); simpl; [|intros [= <-]; by left].
  destruct (listdir fs (path_join root y)) as [names|]; simpl; [|done].
  rewrite scan_names_spec. simpl. intros [= <-]. right. by exists names.
Qed.

(** With listings of distinct plain names, no path and no base name comes
    twice in the result of [find_matching_files_in_year], and the result is
    not longer than the listing. *)
Theorem find_matching_files_in_year_NoDup fs root y p out :
  names_plain fs → names_distinct fs →
  find_matching_files_in_year fs root y p = Ok out →
  NoDup out ∧ NoDup (basename <$> out)
  ∧ ∀ names, listdir fs (path_join root y) = Some names →
      length out ≤ length names.
Proof.
  intros Hplain Hdistinct H.
  apply find_matching_files_in_year_Ok in H as [->|(names & Hnames & ->)].
  { split; [constructor|]. split; [constructor|]. intros; simpl; lia. }
  pose proof (Hplain _ _ Hnames) as Hall. rewrite Forall_forall in Hall.
  pose proof (Hdistinct _ _ Hnames) as Hnodup.
  set (l := filter (qualifies fs (path_join root y) p) names).
  assert (NoDup l) as Hl by by apply NoDup_filter.
  assert (∀ n, n ∈ l → "/"%char ∉ n) as Hlplain.
  { intros n [_ Hn]%list_elem_of_filter. by apply Hall. }
  assert (basename <$> (path_join (path_join root y) <$> l) = l) as Hbase.
  { clearbody l. clear Hl. induction l as [|n l IH]; [done|].
    simpl. rewrite basename_path_join by (apply Hlplain; by left).
    f_equal. apply IH. intros n' Hn'. apply Hlplain. by right. }
  assert (NoDup (basename <$> sorted (path_join (path_join root y) <$> l)))
    as Hbn.
  { rewrite sorted_Permutation. by rewrite Hbase. }
  split; [by apply NoDup_fmap_1 in Hbn|]. split; [done|].
  intros names' Hnames'. rewrite Hnames in Hnames'. injection Hnames' as <-.
  rewrite sorted_Permutation, length_fmap. apply length_filter.
Qed.

(** ** No image in two linked groups *)

Lemma year_prefix_ident v y p :
  year_prefix v = Some (y, p) →
  ∃ i, well_shaped i ∧ y = id_year i ∧ p = prefix_of i.
Proof.
  intros H. destruct (parse_cases v) as [E|(s & pre & i & post & -> & Hf & E)].
  - unfold year_prefix in H. by rewrite E in H.
  - unfold year_prefix in H. rewrite E in H. unfold key_dict in H.
    simplify_map_eq. exists i. by destruct Hf as (Hi & _).
Qed.

Lemma find_matching_files_in_year_basename_prefix fs root y p out f :
  names_plain fs →
  find_matching_files_in_year fs root y p = Ok out →
  f ∈ basename <$> out → ∃ rest, lower f = lower p ++ rest.
Proof.
  intros Hplain H Hf.
  apply find_matching_files_in_year_Ok in H as [->|(names & Hnames & ->)].
  { by apply elem_of_nil in Hf. }
  apply list_elem_of_fmap in Hf as (m & -> & Hm).
  rewrite sorted_Permutation in Hm.
  apply list_elem_of_fmap in Hm as (n & -> & Hn).
  apply list_elem_of_filter in Hn as [(_ & _ & Hq) Hn].
  pose proof (Hplain _ _ Hnames) as Hall. rewrite Forall_forall in Hall.
  rewrite basename_path_join by by apply Hall.
  by apply startswith_spec.
Qed.

(** With listings of plain names, a file name is among the images of at most
    one linked group: the rows of the table share no image. *)
Theorem build_links_like_group_images_disjoint fs meta root rs ms
    (j j' : nat) (r r' : link) (f : str) :
  names_plain fs →
  build_links_like_group fs meta root = Ok (rs, ms) →
  rs !! j = Some r → rs !! j' = Some r' → j ≠ j' →
  f ∈ row_images r → f ∉ row_images r'.
Proof.
  intros Hplain H Hj Hj' Hne Hf Hf'.
  apply build_links_like_group_inv in H as (src_map & seen & _ & Hinv).
  destruct Hinv as [_ Hrows _ _ _ Hnodup _ _]. simpl in *.
  rewrite Forall_forall in Hrows.
  destruct (Hrows r (list_elem_of_lookup_2 _ _ _ Hj))
    as (y & p & matches & Hyp & _ & Hfind & _ & Heq).
  destruct (Hrows r' (list_elem_of_lookup_2 _ _ _ Hj'))
    as (y' & p' & matches' & Hyp' & _ & Hfind' & _ & Heq').
  rewrite Heq in Hf. rewrite Heq' in Hf'. simpl in Hf, Hf'.
  destruct (find_matching_files_in_year_basename_prefix
              _ _ _ _ _ _ Hplain Hfind Hf) as (rest & Hrest).
  destruct (find_matching_files_in_year_basename_prefix
              _ _ _ _ _ _ Hplain Hfind' Hf') as (rest' & Hrest').
  destruct (year_prefix_ident _ _ _ Hyp) as (i & Hi & -> & ->).
  destruct (year_prefix_ident _ _ _ Hyp') as (i' & Hi' & -> & ->).
  rewrite Hrest' in Hrest.
  rewrite !lower_prefix_chars in Hrest by by apply prefix_of_chars.
  destruct (prefix_of_inj i' i rest' rest Hi' Hi Hrest) as (Hg & Hy & Hq & _).
  assert (row_key r = row_key r') as Hkey.
  { rewrite Heq, Heq'. unfold row_key, prefix_of. simpl.
    by rewrite Hg, Hy, Hq. }
  unfold emitted_keys in Hnodup. apply NoDup_app in Hnodup as (Hnodup & _).
  apply Hne. apply (NoDup_lookup _ j j' (row_key r) Hnodup).
  - by rewrite list_lookup_fmap, Hj.
  - by rewrite list_lookup_fmap, Hj', Hkey.
Qed.

(** ** A year folder that cannot be listed *)

Lemma find_matching_files_in_year_Raise fs root y p e :
  find_matching_files_in_year fs root y p = Raise e →
  e = OSError ∧ isdir fs (path_join root y) = true
  ∧ listdir fs (path_join root y) = None.
Proof.
  unfold find_matching_files_in_year, os_listdir.
  destruct (isdir fs (path_join root y)); simpl; [|done].
  destruct (listdir fs (path_join root y)); simpl; [done|].
  by intros [= <-].
Qed.

Lemma link_loop_listing_fails fs root src_map st l x (y p : str) :
  isdir fs (path_join root y) = true →
  listdir fs (path_join root y) = None →
  (∀ k, k ∈ seen_prefixes st → k.1 ≠ y) →
  x ∈ l → year_prefix x = Some (y, p) →
  foldM (link_step fs root src_map) st l = Raise OSError.
Proof.
  intros Hdir Hlist. revert st.
  induction l as [|x0 l IH]; intros st Hseen Hx Hyp;
    [by apply elem_of_nil in Hx|].
  simpl. rewrite link_step_spec.
  destruct (year_prefix x0) as [[y0 p0]|] eqn:Hyp0.
  - case_bool_decide as Hin.
    + simpl. apply IH; [done| |done].
      apply elem_of_cons in Hx as [->|Hx]; [|done].
      rewrite Hyp in Hyp0. injection Hyp0 as <- <-.
      by destruct (Hseen _ Hin).
    + destruct (find_matching_files_in_year fs root y0 p0) as [matches|e]
        eqn:Hfind.
      * assert (y0 ≠ y) as Hne.
        { intros ->. unfold find_matching_files_in_year, os_listdir in Hfind.
          rewrite Hdir in Hfind. simpl in Hfind. by rewrite Hlist in Hfind. }
        assert (x ∈ l) as Hx'.
        { apply elem_of_cons in Hx as [->|Hx]; [|done].
          rewrite Hyp in Hyp0. by injection Hyp0 as <- <-. }
        assert (∀ k, k ∈ seen_prefixes st ∪ {[(y0, lower p0)]} → k.1 ≠ y)
          as Hseen'.
        { intros k [Hk| ->%elem_of_singleton]%elem_of_union; [by apply Hseen|].
          done. }
        destruct matches; simpl; by apply IH.
      * simpl. by apply find_matching_files_in_year_Raise in Hfind as (-> & _).
  - simpl. apply IH; [done| |done].
    apply elem_of_cons in Hx as [->|Hx]; [|done]. by rewrite Hyp in Hyp0.
Qed.

Lemma build_links_like_group_Raise fs meta root r (y p : str) :
  r ∈ meta → year_prefix (m_obj_id_raw r) = Some (y, p) →
  isdir fs (path_join root y) = true →
  listdir fs (path_join root y) = None →
  build_links_like_group fs meta root = Raise OSError.
Proof.
  intros Hr Hyp Hdir Hlist. rewrite build_links_like_group_unfold.
  destruct (src_loop_spec meta ∅) as (src_map & -> & _). simpl.
  rewrite (link_loop_listing_fails fs root src_map (State [] [] ∅)
             (series_of meta) (strip_cell (m_obj_id_raw r)) y p Hdir Hlist);
    [done| | |].
  - intros k Hk. by apply not_elem_of_empty in Hk.
  - apply series_of_elem. exists r. split; [done|]. split; [|done].
    intros E. rewrite E in Hyp. done.
  - by rewrite year_prefix_strip_cell.
Qed.

(** When the year folder of some identifier of the table exists and cannot
    be listed, [build_links_like_group] raises the [OSError] of the listing:
    it returns no table, whatever the other folders hold and wherever in
    the table the identifier stands. *)
Theorem build_links_like_group_listing_fails fs meta root r (y p : str) :
  r ∈ meta → year_prefix (m_obj_id_raw r) = Some (y, p) →
  isdir fs (path_join root y) = true →
  listdir fs (path_join root y) = None →
  build_links_like_group fs meta root = Raise OSError.
Proof. apply build_links_like_group_Raise. Qed.

(** ** A row that comes again *)

Lemma foldM_app {A B} (f : A → B → result A) a l l' :
  foldM f a (l ++ l') = a' ← foldM f a l; foldM f a' l'.
Proof.
  revert a. induction l as [|x l IH]; intros a; simpl; [done|].
  destruct (f a x) as [a1|e]; simpl; [apply IH|done].
Qed.

Lemma drop_duplicates_from_again seen l1 x l2 :
  x ∈ seen ∨ x ∈ l1 →
  drop_duplicates_from seen (l1 ++ x :: l2)
  = drop_duplicates_from seen (l1 ++ l2).
Proof.
  revert seen. induction l1 as [|y l1 IH]; intros seen Hx; simpl.
  - destruct Hx as [Hx|Hx]; [|by apply elem_of_nil in Hx].
    by rewrite decide_True.
  - case_decide as Hy.
    + apply IH. destruct Hx as [Hx|[->|Hx]%elem_of_cons]; auto.
    + f_equal. apply IH.
      destruct Hx as [Hx|[->|Hx]%elem_of_cons]; [left; by right|left; by left|].
      by right.
Qed.

Lemma series_of_again m1 r m2 :
  r ∈ m1 → series_of (m1 ++ r :: m2) = series_of (m1 ++ m2).
Proof.
  intros Hr. unfold series_of, drop_duplicates, dropna.
  rewrite !fmap_app, !filter_app, !fmap_app. simpl.
  destruct (decide (m_obj_id_raw r = PNaN)) as [E|E].
  - by rewrite filter_cons_False by (by intros ?).
  - rewrite filter_cons_True by done. simpl.
    apply drop_duplicates_from_again. right.
    apply list_elem_of_fmap. exists (m_obj_id_raw r). split; [done|].
    apply list_elem_of_filter. split; [done|].
    apply list_elem_of_fmap. by exists r.
Qed.

Lemma src_step_again m1 r m0 m :
  r ∈ m1 → foldM src_step m0 m1 = Ok m → src_step m r = Ok m.
Proof.
  intros Hr Hm. rewrite src_step_spec. f_equal.
  destruct (key_of (m_obj_id_raw r)) as [k|] eqn:Hk; [|done].
  destruct (src_loop_spec m1 m0) as (m' & Hm' & Hspec).
  rewrite Hm in Hm'. injection Hm' as <-.
  assert (m_source_file r ∈ default ∅ (m !! k)) as Hin.
  { apply Hspec. right. by exists r. }
  destruct (m !! k) as [S|] eqn:E; simpl in *; [|by apply not_elem_of_empty in Hin].
  apply insert_id. rewrite E. f_equal. apply set_eq. intros x.
  rewrite elem_of_union, elem_of_singleton.
  split; [by left|intros [Hx| ->]; done].
Qed.

(** A row that repeats an earlier row changes nothing: the result is the one
    obtained without the repetition. *)
Theorem build_links_like_group_repeated_row fs (m1 : list meta_row)
    (r : meta_row) (m2 : list meta_row) root :
  r ∈ m1 →
  build_links_like_group fs (m1 ++ r :: m2) root
  = build_links_like_group fs (m1 ++ m2) root.
Proof.
  intros Hr. rewrite !build_links_like_group_unfold.
  rewrite series_of_again by done.
  rewrite !foldM_app. destruct (foldM src_step ∅ m1) as [m|e] eqn:E; [|done].
  simpl. by rewrite (src_step_again m1 r ∅ m Hr E).
Qed.

(** ** The rows agree with their identifiers *)

Lemma lstrip_stops s : stops is_space (lstrip s).
Proof.
  induction s as [|c s IH]; [done|]. simpl.
  by destruct (is_space c) eqn:E.
Qed.

Lemma lstrip_id s : stops is_space s → lstrip s = s.
Proof. destruct s as [|c s]; [done|]. simpl. by intros ->. Qed.

Lemma strip_strip s : strip (strip s) = strip s.
Proof.
  unfold strip.
  assert (∀ a, rstrip (rstrip a) = rstrip a) as Hr.
  { intros a. unfold rstrip. rewrite rev_involutive.
    by rewrite (lstrip_id (lstrip _)) by apply lstrip_stops. }
  assert (∀ a, stops is_space a → stops is_space (rstrip a)) as Hs.
  { intros a Ha. destruct (rstrip_spec a) as (w & _ & Heq).
    rewrite Heq in Ha. by destruct (rstrip a). }
  rewrite (lstrip_id (rstrip _)) by apply Hs, lstrip_stops.
  apply Hr.
Qed.

Lemma strip_cell_strip_cell v : strip_cell (strip_cell v) = strip_cell v.
Proof. destruct v; [|done..]. simpl. by rewrite strip_strip. Qed.

(** Every row of the table agrees with its own identifier: the identifier is
    a string without whitespace at its ends, and parsing it gives the year
    and the prefix of the row.  The identifiers of the misses are trimmed as
    well, and a miss has a year and a prefix exactly when its identifier
    parses, to that year and that prefix. *)
Theorem build_links_like_group_consistent fs meta root rs ms :
  build_links_like_group fs meta root = Ok (rs, ms) →
  (∀ r, r ∈ rs →
     ∃ s, row_obj_id_raw r = PStr s ∧ strip s = s
       ∧ year_prefix (PStr s) = Some (row_year r, row_base_prefix r))
  ∧ ∀ m, m ∈ ms →
      strip_cell (miss_obj_id_raw m) = miss_obj_id_raw m
      ∧ year_prefix (miss_obj_id_raw m)
        = match miss_year m, miss_base_prefix m with
          | Some y, Some p => Some (y, p)
          | _, _ => None
          end
      ∧ (miss_year m = None ↔ miss_base_prefix m = None).
Proof.
  intros H.
  apply build_links_like_group_inv in H as (src_map & seen & _ & Hinv).
  destruct Hinv as [_ Hrows Hmisses Hrsub Hmsub _ _ _]. simpl in *.
  rewrite Forall_forall in Hrows. rewrite Forall_forall in Hmisses.
  assert (∀ x, x ∈ series_of meta → strip_cell x = x) as Htrim.
  { intros x (r0 & _ & _ & ->)%series_of_elem. apply strip_cell_strip_cell. }
  split.
  - intros r Hr.
    destruct (Hrows r Hr) as (y & p & matches & Hyp & _ & _ & _ & Heq).
    assert (row_obj_id_raw r ∈ series_of meta) as Hin.
    { apply (elem_of_sublist (row_obj_id_raw <$> rs)); [|done].
      apply list_elem_of_fmap. by exists r. }
    apply Htrim in Hin.
    destruct (year_prefix_cases (row_obj_id_raw r))
      as [[_ E]|(s & y' & p' & Hs & _ & _)]; [congruence|].
    exists s. split; [done|]. rewrite Hs in Hin, Hyp. simpl in Hin.
    split; [by injection Hin|]. rewrite Hyp, Heq. done.
  - intros m Hm.
    assert (miss_obj_id_raw m ∈ series_of meta) as Hin.
    { apply (elem_of_sublist (miss_obj_id_raw <$> ms)); [|done].
      apply list_elem_of_fmap. by exists m. }
    split; [by apply Htrim|].
    destruct (Hmisses m Hm) as [(Hyp & _ & Heq)|(y & p & Hyp & _ & _ & Heq)];
      rewrite Hyp, Heq; simpl; done.
Qed.

(** ** Everything is accounted for once *)

Lemma length_omap_filter {A B} (f : A → option B) (l : list A) :
  length (omap f l) + length (filter (λ x, f x = None) l) = length l.
Proof.
  induction l as [|x l IH]; [done|]. rewrite filter_cons.
  destruct (decide (f x = None)) as [E|E]; simpl.
  - rewrite E. simpl. fold (omap f l). lia.
  - destruct (f x); [simpl; fold (omap f l); lia|done].
Qed.

(** The linked groups and the misses with a key are, up to order, the
    distinct keys of the input; the misses without a key are the distinct
    trimmed identifiers that are present and have no key.  So the number of
    rows and misses is the number of distinct keys plus the number of
    distinct identifiers without a key. *)
Theorem build_links_like_group_accounting fs meta root rs ms :
  build_links_like_group fs meta root = Ok (rs, ms) →
  emitted_keys rs ms ≡ₚ remove_dups (omap key_of (m_obj_id_raw <$> meta))
  ∧ miss_obj_id_raw <$> filter (λ m, miss_key m = None) ms
    ≡ₚ filter (λ x, key_of x = None) (series_of meta)
  ∧ length rs + length ms
    = length (remove_dups (omap key_of (m_obj_id_raw <$> meta)))
      + length (filter (λ x, key_of x = None) (series_of meta)).
Proof.
  intros H.
  apply build_links_like_group_inv in H as (src_map & seen & _ & Hinv).
  destruct Hinv as [Hseen _ Hmisses _ Hmsub Hnodup Hkeys Hfailed]. simpl in *.
  rewrite Forall_forall in Hmisses.
  assert (emitted_keys rs ms
          ≡ₚ remove_dups (omap key_of (m_obj_id_raw <$> meta))) as H1.
  { apply NoDup_Permutation; [done|apply NoDup_remove_dups|].
    intros k. rewrite Hkeys, Hseen, elem_of_remove_dups, list_elem_of_omap.
    split.
    - intros (x & (r & Hr & _ & ->)%series_of_elem & Hk).
      rewrite key_of_strip_cell in Hk. exists (m_obj_id_raw r).
      split; [|done]. apply list_elem_of_fmap. by exists r.
    - intros (v & (r & -> & Hr)%list_elem_of_fmap & Hk).
      exists (strip_cell (m_obj_id_raw r)). rewrite key_of_strip_cell.
      split; [|done]. apply series_of_elem. exists r. split; [done|].
      split; [|done]. intros E. by rewrite E in Hk. }
  assert (miss_obj_id_raw <$> filter (λ m, miss_key m = None) ms
          ≡ₚ filter (λ x, key_of x = None) (series_of meta)) as H2.
  { apply NoDup_Permutation.
    - apply (sublist_NoDup _ (miss_obj_id_raw <$> ms)).
      + apply (sublist_NoDup _ (series_of meta)); [apply series_of_NoDup|done].
      + apply fmap_sublist, sublist_filter.
    - apply NoDup_filter, series_of_NoDup.
    - intros x. rewrite list_elem_of_fmap, list_elem_of_filter. split.
      + intros (m & -> & [Hk Hm]%list_elem_of_filter).
        destruct (Hmisses m Hm) as [(Hyp & Hin & _)|(y & p & _ & _ & _ & Heq)].
        * split; [|done]. by apply key_of_year_prefix_none.
        * rewrite Heq in Hk. done.
      + intros [Hk Hx]. apply key_of_year_prefix_none in Hk.
        destruct (proj1 (list_elem_of_fmap _ _ _) (Hfailed x Hx Hk))
          as (m & -> & Hm).
        exists m. split; [done|]. apply list_elem_of_filter. split; [|done].
        destruct (Hmisses m Hm) as [(_ & _ & ->)|(y & p & E & _)]; [done|].
        congruence. }
  split; [done|]. split; [done|].
  rewrite <- H1, <- H2. unfold emitted_keys.
  rewrite length_app, !length_fmap.
  pose proof (length_omap_filter miss_key ms). lia.
Qed.

(** ** Paths of the spreadsheets *)

Lemma rfind_slash_in_dir (d' n : str) :
  d' = [] ∨ (∃ d'', d' = d'' ++ ["/"%char]) → "/"%char ∉ n →
  Z.to_nat (rfind "/" (d' ++ n) + 1) = length d'.
Proof.
  intros [->|[d'' ->]] Hn; unfold rfind.
  - simpl. by rewrite rfind_from_notin.
  - rewrite <- (assoc_L (++)). simpl. rewrite rfind_from_last by done.
    rewrite length_app. simpl. lia.
Qed.

(** [os.path.splitext] on a file name with an extension, in a directory. *)
Lemma splitext_in_dir (d' : str) (c : ascii) (stem ext : str) :
  d' = [] ∨ (∃ d'', d' = d'' ++ ["/"%char]) →
  c ≠ "."%char → "/"%char ∉ c :: stem → "/"%char ∉ ext → "."%char ∉ ext →
  splitext (d' ++ (c :: stem) ++ "."%char :: ext)
  = (d' ++ c :: stem, "."%char :: ext).
Proof.
  intros Hd' Hc Hstem Hext Hdot. unfold splitext.
  assert ("/"%char ∉ (c :: stem) ++ "."%char :: ext) as Hplain.
  { intros [?|[?|?]%elem_of_cons]%elem_of_app; done. }
  pose proof (rfind_slash_in_dir d' _ Hd' Hplain) as Hsep.
  assert (rfind "." (d' ++ (c :: stem) ++ "."%char :: ext)
          = Z.of_nat (length (d' ++ c :: stem))) as Hdotidx.
  { unfold rfind. rewrite (assoc_L (++)). by rewrite rfind_from_last. }
  rewrite Hdotidx, Hsep. rewrite Nat2Z.id.
  assert (rfind "/" (d' ++ (c :: stem) ++ "."%char :: ext)
          < Z.of_nat (length (d' ++ c :: stem)))%Z as Hlt.
  { rewrite length_app. cbn [length]. lia. }
  apply Z.ltb_lt in Hlt. rewrite Hlt.
  rewrite drop_app_length.
  replace (length (d' ++ c :: stem) - length d') with (length (c :: stem))
    by (rewrite length_app; lia).
  rewrite take_app_length. simpl.
  rewrite bool_decide_eq_false_2 by done. simpl.
  change (d' ++ c :: stem ++ "."%char :: ext)
    with (d' ++ (c :: stem) ++ "."%char :: ext).
  rewrite (assoc_L (++)). by rewrite take_app_length, drop_app_length.
Qed.

(** ** The column [T1] *)

Lemma lower_labels_app l1 l2 acc :
  lower_labels (l1 ++ l2) acc
  = match lower_labels l1 acc with
    | Returns m => lower_labels l2 m
    | Throws e => Throws e
    end.
Proof.
  revert acc. induction l1 as [|[s| |z] l1 IH]; intros acc; simpl; auto.
Qed.

Lemma lower_labels_Returns cols acc :
  Forall is_str cols → ∃ m, lower_labels cols acc = Returns m.
Proof.
  intros H. revert acc. induction H as [|c cols [s ->] _ IH]; intros acc;
    simpl; eauto.
Qed.

Lemma lower_labels_keep cols acc k t :
  Forall is_str cols → (∀ s, PStr s ∈ cols → lower s ≠ k) →
  acc !! k = Some t →
  ∃ m, lower_labels cols acc = Returns m ∧ m !! k = Some t.
Proof.
  intros H. revert acc. induction H as [|c cols [s ->] _ IH];
    intros acc Hk Hacc; simpl; [eauto|].
  apply IH.
  - intros s' Hs'. apply Hk. by right.
  - rewrite lookup_insert_ne; [done|]. apply Hk. by left.
Qed.

Lemma lower_labels_from cols acc m k t :
  lower_labels cols acc = Returns m → m !! k = Some t →
  t ∈ cols ∨ acc !! k = Some t.
Proof.
  revert acc. induction cols as [|[s| |z] cols IH]; intros acc; simpl;
    try done.
  - intros [= <-]. by right.
  - intros H Hm. destruct (IH _ H Hm) as [Hin|Hacc]; [left; by right|].
    destruct (decide (lower s = k)) as [<-|Hne].
    + rewrite lookup_insert_eq in Hacc. injection Hacc as <-. left. by left.
    + rewrite lookup_insert_ne in Hacc by done. by right.
Qed.

Lemma lower_labels_Throws cols acc e :
  lower_labels cols acc = Throws e →
  e = AttributeError ∧ ∃ c, c ∈ cols ∧ ¬ is_str c.
Proof.
  revert acc. induction cols as [|[s| |z] cols IH]; intros acc; simpl;
    try done.
  - intros H. destruct (IH _ H) as (-> & c & Hc & Hn).
    split; [done|]. exists c. split; [by right|done].
  - intros [= <-]. split; [done|]. exists PNaN. split; [by left|].
    by intros [s ?].
  - intros [= <-]. split; [done|]. exists (PNum z). split; [by left|].
    by intros [s ?].
Qed.

Lemma column_length df label slim :
  column df label = Returns slim → length slim = nrows df.
Proof.
  unfold column. destruct (list_find _ _) as [[i c]|]; [|done].
  intros [= <-]. by rewrite length_fmap, length_seq.
Qed.

Lemma column_iloc df start stop l1 label l2 :
  labels df = l1 ++ label :: l2 → NoDup (labels df) →
  column (iloc df start stop) label
  = Returns ((λ r, cell df r (length l1))
               <$> seq (start `min` nrows df)
                     (stop `min` nrows df - start `min` nrows df)).
Proof.
  intros Hl Hnodup. unfold column. simpl.
  assert (list_find (λ c, c = label) (labels df) = Some (length l1, label))
    as ->.
  { apply list_find_Some. split; [|split; [done|]].
    - rewrite Hl. by apply list_lookup_middle.
    - intros j y Hj Hlt ->.
      assert (j = length l1); [|lia].
      apply (NoDup_lookup _ _ _ label Hnodup Hj).
      rewrite Hl. by apply list_lookup_middle. }
  f_equal.
  replace (seq (start `min` nrows df)
             (stop `min` nrows df - start `min` nrows df))
    with (Nat.add (start `min` nrows df)
            <$> seq 0 (stop `min` nrows df - start `min` nrows df))
    by (rewrite fmap_add_seq; f_equal; lia).
  by rewrite <- list_fmap_compose.
Qed.

(** [load_selected_excels_only_t1], one file that is there and readable: with
    pairwise distinct string labels, of which the last one that reads [t1]
    in lower case stands at position [length l1], the rows taken are the
    cells of that column in the rows [start] to [stop - 1], as far as the
    table has them, in order, each with the file name as its source. *)
Theorem load_part_rows env (excel_dir fname : str) (start stop : nat)
    (l1 : list pyval) (s : str) (l2 : list pyval) :
  "/"%char ∉ fname →
  path_exists env (path_join excel_dir fname) = true →
  nrows (read_excel_any env (path_join excel_dir fname)) ≠ 0 →
  labels (read_excel_any env (path_join excel_dir fname))
  = l1 ++ PStr s :: l2 →
  NoDup (l1 ++ PStr s :: l2) → Forall is_str (l1 ++ PStr s :: l2) →
  lower s = "t1" → (∀ s', PStr s' ∈ l2 → lower s' ≠ "t1") →
  load_part env excel_dir (fname, (start, stop))
  = Returns
      ((λ r, MetaRow (cell (read_excel_any env (path_join excel_dir fname))
                        r (length l1)) fname)
         <$> seq (start `min` nrows (read_excel_any env
                                       (path_join excel_dir fname)))
               (stop `min` nrows (read_excel_any env
                                    (path_join excel_dir fname))
                - start `min` nrows (read_excel_any env
                                       (path_join excel_dir fname)))).
Proof.
  intros Hplain Hexists Hrows Hlabels Hnodup Hstr Hs Hlast.
  unfold load_part. rewrite Hexists.
  set (df := read_excel_any env (path_join excel_dir fname)) in *.
  unfold frame_empty. rewrite Hlabels.
  rewrite bool_decide_eq_false_2 by (by destruct l1).
  rewrite bool_decide_eq_false_2 by done. simpl.
  rewrite lower_labels_app.
  apply Forall_app in Hstr as [Hstr1 Hstr2].
  destruct (lower_labels_Returns l1 ∅ Hstr1) as [m1 ->]. simpl.
  apply Forall_cons in Hstr2 as [_ Hstr2].
  destruct (lower_labels_keep l2 (<[lower s:=PStr s]> m1) "t1" (PStr s)
              Hstr2 Hlast) as (m & -> & Hm).
  { by rewrite Hs, lookup_insert_eq. }
  simpl in Hm |- *. rewrite Hm. rewrite (column_iloc df start stop l1 (PStr s) l2) by
    (by rewrite ?Hlabels).
  rewrite basename_path_join by done.
  by rewrite <- list_fmap_compose.
Qed.

(** ** What the loaded table is made of *)

Lemma load_part_bound env (excel_dir : str) (c : ascii) (stem : str)
    (start stop : nat) (part : list meta_row) :
  c ≠ "."%char → "/"%char ∉ c :: stem → "."%char ∉ stem →
  load_part env excel_dir ((c :: stem) ++ ".xls", (start, stop))
  = Returns part →
  length part ≤ stop - start
  ∧ ∃ name, name ∈ [ (c :: stem) ++ ".xls"; (c :: stem) ++ ".xlsx" ]
      ∧ Forall (λ r, m_source_file r = name) part.
Proof.
  intros Hc Hstem Hdot.
  assert ("/"%char ∉ (c :: stem) ++ ".xls") as Hplain.
  { apply not_elem_of_app. split; [done|]. by apply (bool_decide_unpack _). }
  assert ("/"%char ∉ (c :: stem) ++ ".xlsx") as Hplainx.
  { apply not_elem_of_app. split; [done|]. by apply (bool_decide_unpack _). }
  destruct (path_join_plain excel_dir) as (d' & Hd' & Hjoin).
  assert ((splitext (path_join excel_dir ((c :: stem) ++ ".xls"))).1
          = d' ++ c :: stem) as Hsplit.
  { rewrite (Hjoin _ Hplain).
    assert ("/"%char ∉ ("xls" : str)) as H1 by by apply (bool_decide_unpack _).
    assert ("."%char ∉ ("xls" : str)) as H2 by by apply (bool_decide_unpack _).
    exact (f_equal fst (splitext_in_dir d' c stem "xls" Hd' Hc Hstem H1 H2)). }
  unfold load_part. rewrite Hsplit. rewrite (Hjoin _ Hplain).
  assert (∀ path b,
    basename path = b →
    (if frame_empty (read_excel_any env path) then Returns []
     else match lower_labels (labels (read_excel_any env path)) ∅ with
          | Throws e => Throws e
          | Returns lower =>
              match lower !! ("t1" : str) with
              | None => Returns []
              | Some t1 =>
                  match column (iloc (read_excel_any env path) start stop) t1 with
                  | Throws e => Throws e
                  | Returns slim =>
                      Returns ((λ v, MetaRow v (basename path)) <$> slim)
                  end
              end
          end) = Returns part →
    length part ≤ stop - start ∧ Forall (λ r, m_source_file r = b) part)
    as Hbody.
  { intros path b Hb.
    destruct (frame_empty _); [intros [= <-]; split; [simpl; lia|constructor]|].
    destruct (lower_labels _ _) as [lower|e]; [|done].
    destruct (lower !! _) as [t1|];
      [|intros [= <-]; split; [simpl; lia|constructor]].
    destruct (column _ _) as [slim|e] eqn:Hcol; [|done].
    intros [= <-]. apply column_length in Hcol. simpl in Hcol.
    split; [rewrite length_fmap; lia|].
    apply Forall_fmap, Forall_forall. intros v _. simpl. done. }
  destruct (path_exists env (d' ++ (c :: stem) ++ ".xls")).
  - intros H. apply (Hbody _ ((c :: stem) ++ ".xls")) in H as [H1 H2].
    + split; [done|]. exists ((c :: stem) ++ ".xls"). split; [by left|done].
    + rewrite <- (Hjoin _ Hplain). by apply basename_path_join.
  - destruct (path_exists env ((d' ++ c :: stem) ++ ".xlsx")).
    + intros H. apply (Hbody _ ((c :: stem) ++ ".xlsx")) in H as [H1 H2].
      * split; [done|]. exists ((c :: stem) ++ ".xlsx").
        split; [right; by left|done].
      * rewrite <- (assoc_L (++)).
        change (d' ++ (c :: stem) ++ ".xlsx")
          with (d' ++ ((c :: stem) ++ ".xlsx")).
        rewrite <- (Hjoin _ Hplainx). by apply basename_path_join.
    + intros [= <-]. split; [simpl; lia|].
      exists ((c :: stem) ++ ".xls"). split; [by left|constructor].
Qed.

Lemma load_selected_excels_only_t1_split env (excel_dir : str)
    (meta : list meta_row) :
  load_selected_excels_only_t1 env excel_dir = Returns meta →
  ∃ ak aeg ak_name aeg_name, meta = ak ++ aeg
    ∧ length ak ≤ 300 ∧ length aeg ≤ 500
    ∧ ak_name ∈ AK_names ∧ aeg_name ∈ AEG_names
    ∧ Forall (λ r, m_source_file r = ak_name) ak
    ∧ Forall (λ r, m_source_file r = aeg_name) aeg.
Proof.
  unfold load_selected_excels_only_t1, specs. cbn [load_parts].
  destruct (load_part env excel_dir
              ("Liste_AK Kommunikation.xls" : str, (300, 600)))
    as [ak|e] eqn:Hak; [|done].
  destruct (load_part env excel_dir
              ("Liste_AEG Produktsammlung.xls" : str, (2500, 3000)))
    as [aeg|e] eqn:Haeg; [|done].
  intros [= <-].
  apply (load_part_bound env excel_dir "L" "iste_AK Kommunikation") in Hak
    as (H1 & n1 & Hn1 & H2); [|done|by apply (bool_decide_unpack _)..].
  apply (load_part_bound env excel_dir "L" "iste_AEG Produktsammlung") in Haeg
    as (H3 & n2 & Hn2 & H4); [|done|by apply (bool_decide_unpack _)..].
  exists ak, aeg, n1, n2. simpl. rewrite (right_id_L [] (++)).
  split; [done|]. split; [simpl in H1; lia|]. split; [simpl in H3; lia|].
  done.
Qed.

(** The table [load_selected_excels_only_t1] returns is made of at most 300
    rows of the first spreadsheet followed by at most 500 rows of the second;
    the rows of a spreadsheet all carry the same source, which is its name
    with the extension [.xls], or [.xlsx] when that file was read instead. *)
Theorem load_selected_excels_only_t1_parts env (excel_dir : str)
    (meta : list meta_row) :
  load_selected_excels_only_t1 env excel_dir = Returns meta →
  ∃ ak aeg ak_name aeg_name, meta = ak ++ aeg
    ∧ length ak ≤ 300 ∧ length aeg ≤ 500
    ∧ ak_name ∈ AK_names ∧ aeg_name ∈ AEG_names
    ∧ Forall (λ r, m_source_file r = ak_name) ak
    ∧ Forall (λ r, m_source_file r = aeg_name) aeg.
Proof. apply load_selected_excels_only_t1_split. Qed.

(** ** Column labels that are not strings *)

Lemma read_excel_any_cases env path :
  read_excel_any env path = no_frame
  ∨ ∃ eng, pd_read_excel env path eng = Some (read_excel_any env path).
Proof.
  unfold read_excel_any.
  case_bool_decide; [|case_bool_decide].
  - destruct (pd_read_excel env path (Some openpyxl)) eqn:E; [|by left].
    right. by exists (Some openpyxl).
  - destruct (pd_read_excel env path None) eqn:E1;
      [right; by exists None|].
    destruct (pd_read_excel env path (Some xlrd)) eqn:E2; [|by left].
    right. by exists (Some xlrd).
  - by left.
Qed.

Lemma load_part_Throws env excel_dir spec e :
  load_part env excel_dir spec = Throws e →
  e = AttributeError
  ∧ ∃ path eng df c, pd_read_excel env path eng = Some df
      ∧ c ∈ labels df ∧ ¬ is_str c.
Proof.
  destruct spec as [fname [start stop]]. unfold load_part.
  set (found := if path_exists env _ then _ else _).
  destruct found as [path|]; [|done].
  destruct (frame_empty (read_excel_any env path)) eqn:Hempty; [done|].
  destruct (lower_labels _ _) as [lower|e'] eqn:Hlower.
  - destruct (lower !! _) as [t1|] eqn:Ht1; [|done].
    unfold column. simpl.
    destruct (list_find _ _) as [[i c]|] eqn:Hfind; [done|].
    exfalso. apply list_find_None in Hfind. rewrite Forall_forall in Hfind.
    destruct (lower_labels_from _ _ _ _ _ Hlower Ht1) as [Hin|Hacc];
      [|by rewrite lookup_empty in Hacc].
    by apply (Hfind t1).
  - intros [= <-]. apply lower_labels_Throws in Hlower as (-> & c & Hc & Hn).
    split; [done|].
    destruct (read_excel_any_cases env path) as [E|[eng E]].
    + rewrite E in Hc. by apply elem_of_nil in Hc.
    + by exists path, eng, (read_excel_any env path), c.
Qed.

Lemma load_selected_excels_only_t1_Throws env (excel_dir : str) e :
  load_selected_excels_only_t1 env excel_dir = Throws e →
  e = AttributeError
  ∧ ∃ path eng df c, pd_read_excel env path eng = Some df
      ∧ c ∈ labels df ∧ ¬ is_str c.
Proof.
  unfold load_selected_excels_only_t1, specs. cbn [load_parts].
  destruct (load_part env excel_dir
              ("Liste_AK Kommunikation.xls" : str, (300, 600)))
    as [ak|e1] eqn:Hak.
  - destruct (load_part env excel_dir
                ("Liste_AEG Produktsammlung.xls" : str, (2500, 3000)))
      as [aeg|e2] eqn:Haeg; [done|].
    intros [= <-]. by apply load_part_Throws in Haeg.
  - intros [= <-]. by apply load_part_Throws in Hak.
Qed.

Lemma lower_labels_not_str cols acc c :
  c ∈ cols → ¬ is_str c → lower_labels cols acc = Throws AttributeError.
Proof.
  intros Hc Hn. revert acc.
  induction cols as [|[s| |z] cols IH]; intros acc; simpl;
    [by apply elem_of_nil in Hc| |done..].
  apply IH. apply elem_of_cons in Hc as [->|Hc]; [|done].
  destruct Hn. by exists s.
Qed.

Lemma load_part_not_str env (excel_dir fname : str) (range : nat * nat) c :
  path_exists env (path_join excel_dir fname) = true →
  nrows (read_excel_any env (path_join excel_dir fname)) ≠ 0 →
  c ∈ labels (read_excel_any env (path_join excel_dir fname)) →
  ¬ is_str c →
  load_part env excel_dir (fname, range) = Throws AttributeError.
Proof.
  intros Hexists Hrows Hc Hn. destruct range as [start stop].
  unfold load_part. rewrite Hexists.
  assert (frame_empty (read_excel_any env (path_join excel_dir fname)) = false)
    as ->.
  { unfold frame_empty. apply orb_false_iff.
    split; apply bool_decide_eq_false; [|done].
    intros E. rewrite E in Hc. by apply elem_of_nil in Hc. }
  by rewrite (lower_labels_not_str _ _ c Hc Hn).
Qed.

(** [load_selected_excels_only_t1] never raises a [KeyError] for the column
    it selects: the label it has looked up is a label of the table.  And a
    column label that is not a string is not passed over: when one of the
    two spreadsheets is there and is read with at least one row and such a
    label, the loader returns no table, whatever the other columns are. *)
Theorem load_selected_excels_only_t1_labels env (excel_dir : str) :
  load_selected_excels_only_t1 env excel_dir ≠ Throws LabelKeyError
  ∧ ∀ fname range c,
      (fname, range) ∈ specs →
      path_exists env (path_join excel_dir fname) = true →
      nrows (read_excel_any env (path_join excel_dir fname)) ≠ 0 →
      c ∈ labels (read_excel_any env (path_join excel_dir fname)) →
      ¬ is_str c →
      ∀ meta, load_selected_excels_only_t1 env excel_dir ≠ Returns meta.
Proof.
  split.
  - intros H. by apply load_selected_excels_only_t1_Throws in H as [? _].
  - intros fname range c Hspec Hexists Hrows Hc Hn meta.
    pose proof (load_part_not_str env excel_dir fname range c Hexists Hrows
                  Hc Hn) as Hpart.
    unfold load_selected_excels_only_t1, specs in *. cbn [load_parts].
    apply elem_of_cons in Hspec as [E|Hspec].
    + rewrite <- E, Hpart. done.
    + apply list_elem_of_singleton in Hspec. rewrite <- Hspec, Hpart.
      by destruct (load_part env excel_dir
                     ("Liste_AK Kommunikation.xls" : str, (300, 600))).
Qed.

(** ** [main] *)

Lemma main_Returns env fs base_dir r :
  main env fs base_dir = Returns r →
  (load_selected_excels_only_t1 env (EXCEL_DIR base_dir) = Returns []
   ∧ r = Run [] None None)
  ∨ ∃ meta linked misses,
      meta ≠ []
      ∧ load_selected_excels_only_t1 env (EXCEL_DIR base_dir) = Returns meta
      ∧ build_links_like_group fs meta (IMAGE_DIR base_dir)
        = Ok (linked, misses)
      ∧ r = Run linked (match misses with [] => None | _ => Some misses end)
              (Some (Report (length meta) (length linked)
                       (match linked with
                        | [] => 0
                        | _ => length (filter (λ r, 0 < row_image_count r)
                                         linked)
                        end) 0)).
Proof.
  unfold main.
  destruct (load_selected_excels_only_t1 env (EXCEL_DIR base_dir))
    as [[|r0 meta]|e]; [intros [= <-]; by left| |done].
  destruct (build_links_like_group fs (r0 :: meta) (IMAGE_DIR base_dir))
    as [[linked misses]|e] eqn:Hbuild; [|done].
  intros [= <-]. right. by exists (r0 :: meta), linked, misses.
Qed.

Lemma series_of_length meta : length (series_of meta) ≤ length meta.
Proof.
  unfold series_of, drop_duplicates, dropna.
  assert (∀ seen l, length (drop_duplicates_from seen l) ≤ length l) as H.
  { intros seen l. revert seen. induction l as [|x l IH]; intros seen; simpl;
      [lia|].
    case_decide; [specialize (IH seen)|specialize (IH (x :: seen))];
      simpl; lia. }
  etrans; [apply H|]. rewrite length_fmap.
  etrans; [apply length_filter|]. by rewrite length_fmap.
Qed.

(** A run of [main] that returns: when nothing was loaded, the CSV is empty
    and neither a misses log nor a report is produced; otherwise the report
    counts between 1 and 800 spreadsheet rows, [unique_object_groups] is
    the number of rows of the CSV, which is at most the number of
    spreadsheet rows, [object_groups_with_images] is the same number,
    [object_groups_without_images] is 0, and a misses log is written only
    with at least one entry. *)
Theorem main_report env fs base_dir r :
  main env fs base_dir = Returns r →
  match printed r with
  | None => linked_csv r = [] ∧ misses_csv r = None
  | Some rep =>
      0 < excel_rows rep ≤ 800
      ∧ unique_object_groups rep = length (linked_csv r)
      ∧ object_groups_with_images rep = length (linked_csv r)
      ∧ object_groups_without_images rep = 0
      ∧ length (linked_csv r) ≤ excel_rows rep
      ∧ misses_csv r ≠ Some []
  end.
Proof.
  intros [[_ ->]|(meta & linked & misses & Hne & Hload & Hbuild & ->)]%main_Returns;
    simpl; [done|].
  apply load_selected_excels_only_t1_split in Hload
    as (ak & aeg & _ & _ & -> & Hak & Haeg & _).
  apply build_links_like_group_inv in Hbuild as (src_map & seen & _ & Hinv).
  destruct Hinv as [_ Hrows _ Hrsub _ _ _ _]. simpl in *.
  split.
  { rewrite length_app. split; [|lia].
    destruct ak, aeg; simpl; try lia. done. }
  split; [done|]. split.
  { assert (filter (λ r, 0 < row_image_count r) linked = linked) as ->.
    { clear Hrsub. induction Hrows as [|r l Hr Hl IH]; [done|].
      rewrite filter_cons_True, IH; [done|].
      destruct Hr as (y & p & matches & _ & _ & _ & Hm & ->). simpl.
      destruct matches; [done|simpl; lia]. }
    by destruct linked. }
  split; [done|]. split.
  { apply sublist_length in Hrsub. rewrite length_fmap in Hrsub.
    etrans; [exact Hrsub|]. apply series_of_length. }
  by destruct misses.
Qed.

Lemma two_names (n1 n2 : str) (files : list str) :
  NoDup files → (∀ f, f ∈ files → f = n1 ∨ f = n2) →
  files = [] ∨ files = [n1] ∨ files = [n2] ∨ files = [n1; n2]
  ∨ files = [n2; n1].
Proof.
  intros Hnodup Hin.
  destruct files as [|a [|b [|c l]]]; [by left| | |].
  - destruct (Hin a) as [->| ->]; [by left|auto..].
  - apply NoDup_cons in Hnodup as [Ha _].
    destruct (Hin a) as [->| ->]; [by left| |];
      (destruct (Hin b) as [->| ->]; [right; by left|..]);
      try (destruct Ha; by left); auto 6.
  - exfalso. apply NoDup_cons in Hnodup as [Ha Hnodup].
    apply NoDup_cons in Hnodup as [Hb _].
    assert (a ≠ b) by (intros ->; apply Ha; by left).
    assert (a ≠ c) by (intros ->; apply Ha; right; by left).
    assert (b ≠ c) by (intros ->; apply Hb; by left).
    destruct (Hin a) as [->| ->]; [by left| |];
      (destruct (Hin b) as [->| ->]; [right; by left|..]);
      (destruct (Hin c) as [->| ->]; [right; right; by left|..]); done.
Qed.

(** The column [_source_files] of the CSV a run of [main] writes: with the
    names under which the two spreadsheets were read, every row holds the
    name of the first, the name of the second, or both, the second
    spreadsheet's name before the first's. *)
Theorem main_source_files env fs base_dir r :
  main env fs base_dir = Returns r →
  ∃ ak_name aeg_name, ak_name ∈ AK_names ∧ aeg_name ∈ AEG_names
    ∧ ∀ row, row ∈ linked_csv r →
        row_source_files row
        ∈ [ ak_name; aeg_name; aeg_name ++ ", " ++ ak_name ].
Proof.
  intros [[_ ->]|(meta & linked & misses & Hne & Hload & Hbuild & ->)]%main_Returns;
    simpl.
  { exists ("Liste_AK Kommunikation.xls" : str),
      ("Liste_AEG Produktsammlung.xls" : str).
    split; [by left|]. split; [by left|]. by intros row ?%elem_of_nil. }
  apply load_selected_excels_only_t1_split in Hload
    as (ak & aeg & n1 & n2 & -> & _ & _ & Hn1 & Hn2 & Hak & Haeg).
  exists n1, n2. split; [done|]. split; [done|]. intros row Hrow.
  apply build_links_like_group_inv in Hbuild as (src_map & seen & Hsrc & Hinv).
  destruct Hinv as [_ Hrows _ _ _ _ _ _]. simpl in *.
  rewrite Forall_forall in Hrows.
  destruct (Hrows row Hrow) as (y & p & matches & Hyp & Hfirst & _ & _ & ->).
  simpl.
  destruct (source_files_spec _ _ (y, lower p) Hsrc) as (Hsorted & Hnodup & Hin).
  set (files := sorted (elements (default ∅ (src_map !! (y, lower p))))) in *.
  assert (∀ f, f ∈ files → f = n1 ∨ f = n2) as Hnames.
  { intros f (r0 & Hr0 & _ & <-)%Hin.
    rewrite Forall_forall in Hak. rewrite Forall_forall in Haeg.
    apply elem_of_app in Hr0 as [?|?]; [left; by apply Hak|right; by apply Haeg]. }
  assert (files ≠ []) as Hsome.
  { destruct Hfirst as (l1 & l2 & Hseries & Hkey & _).
    assert (row_obj_id_raw (Link (row_obj_id_raw row) y p (basename <$> matches)
                              (length matches) (str_join ", " files))
            ∈ series_of (ak ++ aeg)) as Hx.
    { rewrite Hseries. apply elem_of_app. right. by left. }
    apply series_of_elem in Hx as (r0 & Hr0 & _ & Hx).
    assert (m_source_file r0 ∈ files) as Hf.
    { apply Hin. exists r0. split; [done|]. split; [|done].
      by rewrite <- key_of_strip_cell, <- Hx. }
    intros E. rewrite E in Hf. by apply elem_of_nil in Hf. }
  destruct (two_names n1 n2 files Hnodup Hnames)
    as [E|[E|[E|[E|E]]]]; rewrite E in *; [done|by left|right; by left| |].
  - exfalso. apply Sorted_inv in Hsorted as [_ Hhd].
    apply HdRel_inv in Hhd. unfold str_le in Hhd.
    repeat (apply elem_of_cons in Hn1 as [->|Hn1]);
      [| |by apply elem_of_nil in Hn1];
      (repeat (apply elem_of_cons in Hn2 as [->|Hn2]);
        [| |by apply elem_of_nil in Hn2]);
      by vm_compute in Hhd.
  - right. right. by left.
Qed.


(** ** The further sample inputs *)

Lemma demo_ident_plain_well_shaped : well_shaped demo_ident_plain.
Proof. repeat split; try done; try (repeat constructor); simpl; lia. Qed.

Lemma demo_fs_names_distinct : names_distinct demo_fs.
Proof.
  intros d names. unfold demo_fs, listdir.
  repeat case_bool_decide; intros [= <-]; by apply (bool_decide_unpack _).
Qed.

Lemma demo_fs_reordered_same : same_up_to_listing_order demo_fs demo_fs_reordered.
Proof.
  split; [done|]. split; [done|]. intros d.
  unfold demo_fs_reordered, demo_fs, listdir.
  repeat case_bool_decide; simplify_eq; try done.
  apply perm_swap.
Qed.

Lemma demo_fs_year_agree r y p :
  r ∈ demo_meta → year_prefix (m_obj_id_raw r) = Some (y, p) →
  agree_on_dir demo_fs demo_fs_year (path_join "root" y).
Proof.
  intros Hr Hyp.
  repeat (apply elem_of_cons in Hr as [->|Hr]);
    try (by apply elem_of_nil in Hr);
    vm_compute in Hyp; try done; injection Hyp as <- <-;
    (split; [by vm_compute|]); (split; [by vm_compute|done]).
Qed.

Lemma two_build : build_links_like_group demo_fs two_meta "root" = Ok (two_rows, []).
Proof. by vm_compute. Qed.

Lemma demo_load :
  load_selected_excels_only_t1 demo_excel demo_excel_dir = Returns demo_table.
Proof. by vm_compute. Qed.

Lemma demo_main : main demo_excel demo_images "/base" = Returns demo_run.
Proof. by vm_compute. Qed.


(** ** Instances of the further theorems *)

Lemma parse_object_number_shape_witness :
  parse_object_number (PStr " 1 / 1997 / 1063 0")
  = Ok (Some (key_dict "1997" "1-1997-1063-"))
  ∧ ∃ y p, key_dict "1997" "1-1997-1063-" = key_dict y p
      ∧ digits y ∧ length y = 4 ∧ Forall prefix_char p ∧ lower p = p
      ∧ key_of (PStr " 1 / 1997 / 1063 0") = Some (y, p).
Proof.
  assert (parse_object_number (PStr " 1 / 1997 / 1063 0")
          = Ok (Some (key_dict "1997" "1-1997-1063-"))) as H
      by (by vm_compute).
  split; [exact H|]. exact (parse_object_number_shape _ _ H).
Defined.

Lemma parse_object_number_group_whole_witness :
  parse_object_number (PStr "Inv. 12 / 1997 /  063   5 (b)")
  = Ok (Some (key_dict "1997" "12-1997-063-"))
  ∧ ∃ pre i post,
      first_occurrence "Inv. 12 / 1997 /  063   5 (b)" pre i post
      ∧ key_dict "1997" "12-1997-063-" = key_dict (id_year i) (prefix_of i)
      ∧ ∀ pre' c, pre = pre' ++ [c] → is_digit c = false.
Proof.
  assert (parse_object_number (PStr "Inv. 12 / 1997 /  063   5 (b)")
          = Ok (Some (key_dict "1997" "12-1997-063-"))) as H
      by (by vm_compute).
  split; [exact H|]. exact (parse_object_number_group_whole _ _ H).
Defined.

Lemma key_of_same_object_witness :
  first_occurrence "Inv. 12 / 1997 /  063   5 (b)" "Inv. " demo_ident " (b)"
  ∧ first_occurrence "12/1997/063 9" [] demo_ident_plain []
  ∧ key_of (PStr "Inv. 12 / 1997 /  063   5 (b)")
    = key_of (PStr "12/1997/063 9").
Proof.
  assert (Forall (λ c, is_digit c = false) ("Inv. " : str)) as Hpre
      by (by repeat constructor).
  pose proof (first_occurrence_no_digits "Inv. " demo_ident " (b)"
                demo_ident_well_shaped Hpre) as H1.
  pose proof (first_occurrence_no_digits [] demo_ident_plain []
                demo_ident_plain_well_shaped (List.Forall_nil _)) as H2.
  split; [exact H1|]. split; [exact H2|].
  exact (proj2 (key_of_same_object _ _ _ _ _ _ _ _ H1 H2)
           (conj eq_refl (conj eq_refl eq_refl))).
Defined.

Lemma listing_order_irrelevant_witness :
  same_up_to_listing_order demo_fs demo_fs_reordered
  ∧ build_links_like_group demo_fs_reordered demo_meta "root"
    = Ok (demo_rows, demo_misses).
Proof.
  split; [exact demo_fs_reordered_same|].
  exact (eq_trans
           (eq_sym (proj2 (listing_order_irrelevant _ _ demo_fs_reordered_same)
                      demo_meta "root"))
           demo_build).
Defined.

Lemma build_links_like_group_local_witness :
  (∀ r y p, r ∈ demo_meta → year_prefix (m_obj_id_raw r) = Some (y, p) →
     agree_on_dir demo_fs demo_fs_year (path_join "root" y))
  ∧ build_links_like_group demo_fs_year demo_meta "root"
    = Ok (demo_rows, demo_misses).
Proof.
  split; [exact demo_fs_year_agree|].
  exact (eq_trans
           (eq_sym (build_links_like_group_local demo_fs demo_fs_year
                      demo_meta "root" demo_fs_year_agree))
           demo_build).
Defined.

Lemma find_matching_files_in_year_NoDup_witness :
  names_plain demo_fs ∧ names_distinct demo_fs
  ∧ find_matching_files_in_year demo_fs "root" "1997" "1-1997-1063-"
    = Ok [ "root/1997/1-1997-1063-000.JPG" : str;
           "root/1997/1-1997-1063-001.jpg" : str ]
  ∧ NoDup (basename <$> [ "root/1997/1-1997-1063-000.JPG" : str;
                          "root/1997/1-1997-1063-001.jpg" : str ]).
Proof.
  split; [exact demo_fs_names_plain|]. split; [exact demo_fs_names_distinct|].
  split; [exact demo_find|].
  exact (proj1 (proj2 (find_matching_files_in_year_NoDup _ _ _ _ _
                         demo_fs_names_plain demo_fs_names_distinct
                         demo_find))).
Defined.

Lemma build_links_like_group_images_disjoint_witness :
  names_plain demo_fs
  ∧ build_links_like_group demo_fs two_meta "root" = Ok (two_rows, [])
  ∧ two_rows !! 0 = Some two_row_1 ∧ two_rows !! 1 = Some two_row_2
  ∧ 0 ≠ 1
  ∧ ("1-1997-1063-001.jpg" : str) ∈ row_images two_row_1
  ∧ ("1-1997-1063-001.jpg" : str) ∉ row_images two_row_2.
Proof.
  assert (0 ≠ 1) as Hne by lia.
  assert (("1-1997-1063-001.jpg" : str) ∈ row_images two_row_1) as Hf
      by (right; by left).
  split; [exact demo_fs_names_plain|]. split; [exact two_build|].
  split; [reflexivity|]. split; [reflexivity|]. split; [exact Hne|].
  split; [exact Hf|].
  exact (build_links_like_group_images_disjoint demo_fs two_meta "root"
           two_rows [] 0 1 two_row_1 two_row_2 "1-1997-1063-001.jpg"
           demo_fs_names_plain two_build eq_refl eq_refl Hne Hf).
Defined.

Lemma build_links_like_group_listing_fails_witness :
  MetaRow (PStr "1/1997/1063 2") "b.xls" ∈ demo_meta
  ∧ year_prefix (PStr "1/1997/1063 2") = Some ("1997" : str, "1-1997-1063-" : str)
  ∧ isdir locked_fs (path_join "root" "1997") = true
  ∧ listdir locked_fs (path_join "root" "1997") = None
  ∧ build_links_like_group locked_fs demo_meta "root" = Raise OSError.
Proof.
  assert (MetaRow (PStr "1/1997/1063 2") "b.xls" ∈ demo_meta) as H1
      by (right; right; by left).
  assert (year_prefix (PStr "1/1997/1063 2")
          = Some ("1997" : str, "1-1997-1063-" : str)) as H2
      by (by vm_compute).
  assert (isdir locked_fs (path_join "root" "1997") = true) as H3
      by (by vm_compute).
  assert (listdir locked_fs (path_join "root" "1997") = None) as H4
      by reflexivity.
  split; [exact H1|]. split; [exact H2|]. split; [exact H3|].
  split; [exact H4|].
  exact (build_links_like_group_listing_fails locked_fs demo_meta "root"
           _ _ _ H1 H2 H3 H4).
Defined.

Lemma build_links_like_group_repeated_row_witness :
  MetaRow (PStr "1/1997/1063 2") "b.xls" ∈ demo_meta
  ∧ build_links_like_group demo_fs
      (demo_meta ++ MetaRow (PStr "1/1997/1063 2") "b.xls" :: two_meta) "root"
    = build_links_like_group demo_fs (demo_meta ++ two_meta) "root".
Proof.
  assert (MetaRow (PStr "1/1997/1063 2") "b.xls" ∈ demo_meta) as H
      by (right; right; by left).
  split; [exact H|].
  exact (build_links_like_group_repeated_row demo_fs demo_meta _ two_meta
           "root" H).
Defined.

Lemma build_links_like_group_consistent_witness :
  build_links_like_group demo_fs demo_meta "root" = Ok (demo_rows, demo_misses)
  ∧ ∀ r, r ∈ demo_rows →
      ∃ s, row_obj_id_raw r = PStr s ∧ strip s = s
        ∧ year_prefix (PStr s) = Some (row_year r, row_base_prefix r).
Proof.
  split; [exact demo_build|].
  exact (proj1 (build_links_like_group_consistent _ _ _ _ _ demo_build)).
Defined.

Lemma build_links_like_group_accounting_witness :
  build_links_like_group demo_fs demo_meta "root" = Ok (demo_rows, demo_misses)
  ∧ length demo_rows + length demo_misses
    = length (remove_dups (omap key_of (m_obj_id_raw <$> demo_meta)))
      + length (filter (λ x, key_of x = None) (series_of demo_meta)).
Proof.
  split; [exact demo_build|].
  exact (proj2 (proj2 (build_links_like_group_accounting _ _ _ _ _
                         demo_build))).
Defined.

Lemma load_part_rows_witness :
  ("/"%char ∉ ("Liste_AK Kommunikation.xls" : str))
  ∧ path_exists demo_excel
      (path_join demo_excel_dir "Liste_AK Kommunikation.xls") = true
  ∧ labels (read_excel_any demo_excel
              (path_join demo_excel_dir "Liste_AK Kommunikation.xls"))
    = [PStr "Nr"] ++ PStr "T1" :: [PStr "T2"]
  ∧ load_part demo_excel demo_excel_dir
      ("Liste_AK Kommunikation.xls" : str, (300, 600))
    = Returns [ MetaRow (PStr " 1 / 1997 / 1063 0") "Liste_AK Kommunikation.xls";
                MetaRow (PStr "no number here") "Liste_AK Kommunikation.xls";
                MetaRow (PStr "1/1997/1063 2") "Liste_AK Kommunikation.xls" ].
Proof.
  assert ("/"%char ∉ ("Liste_AK Kommunikation.xls" : str)) as H1
      by (by apply (bool_decide_unpack _)).
  assert (path_exists demo_excel
            (path_join demo_excel_dir "Liste_AK Kommunikation.xls") = true)
    as H2 by (by vm_compute).
  assert (nrows (read_excel_any demo_excel
                   (path_join demo_excel_dir "Liste_AK Kommunikation.xls"))
          ≠ 0) as H3 by (by vm_compute).
  assert (labels (read_excel_any demo_excel
                    (path_join demo_excel_dir "Liste_AK Kommunikation.xls"))
          = [PStr "Nr"] ++ PStr "T1" :: [PStr "T2"]) as H4 by (by vm_compute).
  assert (NoDup ([PStr "Nr"] ++ PStr "T1" :: [PStr "T2"])) as H5
      by (by apply (bool_decide_unpack _)).
  assert (Forall is_str ([PStr "Nr"] ++ PStr "T1" :: [PStr "T2"])) as H6
      by (repeat constructor; by eexists).
  assert (lower "T1" = ("t1" : str)) as H7 by reflexivity.
  assert (∀ s', PStr s' ∈ [PStr "T2"] → lower s' ≠ ("t1" : str)) as H8.
  { intros s' Hs'. apply list_elem_of_singleton in Hs'. injection Hs' as ->.
    by vm_compute. }
  split; [exact H1|]. split; [exact H2|]. split; [exact H4|].
  exact (eq_trans
           (load_part_rows demo_excel demo_excel_dir
              "Liste_AK Kommunikation.xls" 300 600 [PStr "Nr"] "T1"
              [PStr "T2"] H1 H2 H3 H4 H5 H6 H7 H8)
           eq_refl).
Defined.

Lemma load_selected_excels_only_t1_parts_witness :
  load_selected_excels_only_t1 demo_excel demo_excel_dir = Returns demo_table
  ∧ ∃ ak aeg ak_name aeg_name, demo_table = ak ++ aeg
      ∧ length ak ≤ 300 ∧ length aeg ≤ 500
      ∧ ak_name ∈ AK_names ∧ aeg_name ∈ AEG_names
      ∧ Forall (λ r, m_source_file r = ak_name) ak
      ∧ Forall (λ r, m_source_file r = aeg_name) aeg.
Proof.
  split; [exact demo_load|].
  exact (load_selected_excels_only_t1_parts _ _ _ demo_load).
Defined.

Lemma load_selected_excels_only_t1_labels_witness :
  ("Liste_AEG Produktsammlung.xls" : str, (2500, 3000)) ∈ specs
  ∧ path_exists bad_excel
      (path_join demo_excel_dir "Liste_AEG Produktsammlung.xls") = true
  ∧ PNum 7 ∈ labels (read_excel_any bad_excel
                       (path_join demo_excel_dir
                          "Liste_AEG Produktsammlung.xls"))
  ∧ ¬ is_str (PNum 7)
  ∧ ∀ meta, load_selected_excels_only_t1 bad_excel demo_excel_dir
            ≠ Returns meta.
Proof.
  assert (("Liste_AEG Produktsammlung.xls" : str, (2500, 3000)) ∈ specs) as H1
      by (right; by left).
  assert (path_exists bad_excel
            (path_join demo_excel_dir "Liste_AEG Produktsammlung.xls") = true)
    as H2 by reflexivity.
  assert (nrows (read_excel_any bad_excel
                   (path_join demo_excel_dir "Liste_AEG Produktsammlung.xls"))
          ≠ 0) as H3 by (by vm_compute).
  assert (PNum 7 ∈ labels (read_excel_any bad_excel
                             (path_join demo_excel_dir
                                "Liste_AEG Produktsammlung.xls"))) as H4.
  { replace (labels _) with [PStr "T1"; PNum 7] by (by vm_compute).
    right. by left. }
  assert (¬ is_str (PNum 7)) as H5 by (by intros [s ?]).
  split; [exact H1|]. split; [exact H2|]. split; [exact H4|].
  split; [exact H5|].
  exact (proj2 (load_selected_excels_only_t1_labels bad_excel demo_excel_dir)
           _ _ _ H1 H2 H3 H4 H5).
Defined.

Lemma main_report_witness :
  main demo_excel demo_images "/base" = Returns demo_run
  ∧ match printed demo_run with
    | None => linked_csv demo_run = [] ∧ misses_csv demo_run = None
    | Some rep =>
        0 < excel_rows rep ≤ 800
        ∧ unique_object_groups rep = length (linked_csv demo_run)
        ∧ object_groups_with_images rep = length (linked_csv demo_run)
        ∧ object_groups_without_images rep = 0
        ∧ length (linked_csv demo_run) ≤ excel_rows rep
        ∧ misses_csv demo_run ≠ Some []
    end.
Proof.
  split; [exact demo_main|]. exact (main_report _ _ _ _ demo_main).
Defined.

Lemma main_source_files_witness :
  main demo_excel demo_images "/base" = Returns demo_run
  ∧ ∃ ak_name aeg_name, ak_name ∈ AK_names ∧ aeg_name ∈ AEG_names
      ∧ ∀ row, row ∈ linked_csv demo_run →
          row_source_files row
          ∈ [ ak_name; aeg_name; aeg_name ++ ", " ++ ak_name ].
Proof.
  split; [exact demo_main|]. exact (main_source_files _ _ _ _ demo_main).
Defined.

